(** * s3-profiler: the analysis pipeline

    A shallow embedding of the bucket aggregator ([profiler/bucket.go]),
    the metadata aggregator ([profiler/metadata.go]) and the partition
    detector ([profiler/partition.go]), with the properties of the
    specification proved or refuted on it.

    Conventions.
    - A Go [string] is a sequence of bytes: Rocq's [string].
    - An [int64] is a [Z]; every addition writes its wrap-around out
      ([Int64.add]).
    - A Go [map] is a [gmap]; [range] over a map visits the entries in an
      unspecified order, so a loop over a map is a function of the visiting
      order, and a result is any value obtained for some order.
    - [sort.Slice] is not stable: its result is any permutation of its input
      that is ordered by the [less] function. *)

From Stdlib Require Import ZArith String Ascii List Bool Lia QArith.
From Stdlib Require Import PrimFloat SpecFloat FloatOps.
From Stdlib Require Import Sorting.Permutation Sorting.Sorted.
From stdpp Require Import gmap strings list fin_maps sorting.

Set Warnings "-inexact-float".

Local Open Scope string_scope.
Local Open Scope Z_scope.

(** ** 64-bit signed integers *)

Module Int64.

Definition min_int64 : Z := - 2 ^ 63.
Definition max_int64 : Z := 2 ^ 63 - 1.

Definition in_range (z : Z) : Prop := min_int64 <= z <= max_int64.

(** Two's complement wrap-around of a mathematical integer. *)
Definition wrap (z : Z) : Z := (z + 2 ^ 63) mod 2 ^ 64 - 2 ^ 63.

(** [a + b] and [a++] on [int64]. *)
Definition add (a b : Z) : Z := wrap (a + b).
Definition incr (a : Z) : Z := add a 1.

End Int64.

(** ** Go strings: the functions of [strings] and [path/filepath] in use *)

Module GoString.

(** The bytes of a string, and back. *)
Definition bytes (s : string) : list ascii := list_ascii_of_string s.
Definition of_bytes (l : list ascii) : string := string_of_list_ascii l.

(** [s < t]: Go compares strings byte by byte. *)
Definition lt (s t : string) : bool := String.ltb s t.

(** [strings.HasPrefix]: [len(s) >= len(prefix) && s[:len(prefix)] == prefix]. *)
Definition HasPrefix (s prefix : string) : bool :=
  (String.length prefix <=? String.length s)%nat
  && String.eqb (substring 0 (String.length prefix) s) prefix.

(** [strings.HasSuffix]:
    [len(s) >= len(suffix) && s[len(s)-len(suffix):] == suffix]. *)
Definition HasSuffix (s suffix : string) : bool :=
  (String.length suffix <=? String.length s)%nat
  && String.eqb
       (substring (String.length s - String.length suffix)
                  (String.length suffix) s)
       suffix.

(** [strings.TrimPrefix]. *)
Definition TrimPrefix (s prefix : string) : string :=
  if HasPrefix s prefix
  then substring (String.length prefix)
                 (String.length s - String.length prefix) s
  else s.

(** [strings.Split(s, "/")]: the pieces between the separators; always at
    least one piece. *)
Fixpoint split_bytes (sep : ascii) (l : list ascii) : list (list ascii) :=
  match l with
  | [] => [[]]
  | c :: l' =>
      if Ascii.eqb c sep then [] :: split_bytes sep l'
      else match split_bytes sep l' with
           | [] => [[c]]
           | p :: ps => (c :: p) :: ps
           end
  end.

Definition Split (s : string) (sep : ascii) : list string :=
  map of_bytes (split_bytes sep (bytes s)).

(** The byte ranges ['A'..'Z'] and [>= utf8.RuneSelf]. *)
Definition is_upper (c : ascii) : bool :=
  let n := nat_of_ascii c in ((65 <=? n) && (n <=? 90))%nat.
Definition is_ascii (c : ascii) : bool := (nat_of_ascii c <? 128)%nat.
Definition lower_byte (c : ascii) : ascii :=
  if is_upper c then ascii_of_nat (nat_of_ascii c + 32) else c.

Section ToLower.

(** [strings.Map(unicode.ToLower, s)], the path [strings.ToLower] takes
    for a string with a byte outside ASCII. The Unicode case tables are
    not part of the repository. *)
Variable mapUnicodeLower : string -> string.

(** [strings.ToLower]: an ASCII string without upper-case letters is
    returned as it is, an ASCII string is lowered byte by byte. *)
Definition ToLower (s : string) : string :=
  let isASCII := forallb is_ascii (bytes s) in
  let hasUpper := existsb is_upper (bytes s) in
  if isASCII then
    if negb hasUpper then s
    else of_bytes (map lower_byte (bytes s))
  else mapUnicodeLower s.

End ToLower.

End GoString.

(** [path/filepath] on a system whose separator is ['/'] and that has no
    volume names. *)
Module Filepath.
Import GoString.

Definition Separator : ascii := "/"%char.
Definition IsPathSeparator (c : ascii) : bool := Ascii.eqb c Separator.

(** [for len(path) > 0 && IsPathSeparator(path[len(path)-1])], on the
    reversed path. *)
Fixpoint strip_separators (rpath : list ascii) : list ascii :=
  match rpath with
  | [] => []
  | c :: r => if IsPathSeparator c then strip_separators r else rpath
  end.

(** [for i >= 0 && !IsPathSeparator(path[i]) { i-- }], on the reversed
    path: the bytes after the last separator, collected in [acc]. *)
Fixpoint last_element (rpath acc : list ascii) : list ascii :=
  match rpath with
  | [] => acc
  | c :: r => if IsPathSeparator c then acc else last_element r (c :: acc)
  end.

(** [filepath.Base]. *)
Definition Base (path : string) : string :=
  if String.eqb path "" then "."
  else
    let elem := last_element (strip_separators (rev (bytes path))) [] in
    match elem with
    | [] => "/"
    | _ => of_bytes elem
    end.

(** [filepath.Ext]: scan backwards to the last separator, return the text
    from the first dot met. *)
Fixpoint ext_scan (rpath acc : list ascii) : list ascii :=
  match rpath with
  | [] => []
  | c :: r =>
      if IsPathSeparator c then []
      else if Ascii.eqb c "."%char then c :: acc
      else ext_scan r (c :: acc)
  end.

Definition Ext (path : string) : string :=
  of_bytes (ext_scan (rev (bytes path)) []).

End Filepath.

(** ** The regular expressions of the partition detector *)

Module Regexp.

(** The six expressions are sequences of literal bytes and [\d]; capture
    groups do not change what [matches[0]] is. *)
Inductive atom : Type :=
| Lit (c : ascii)
| Digit.

Definition regex : Type := list atom.

Definition is_digit (c : ascii) : bool :=
  let n := nat_of_ascii c in ((48 <=? n) && (n <=? 57))%nat.

Definition atom_matches (a : atom) (c : ascii) : bool :=
  match a with
  | Lit d => Ascii.eqb c d
  | Digit => is_digit c
  end.

Definition lits (s : string) : regex := map Lit (GoString.bytes s).
Definition digits (n : nat) : regex := repeat Digit n.

(** The text matched by [re] at the start of [s]. *)
Fixpoint match_here (re : regex) (s : string) : option string :=
  match re with
  | [] => Some ""
  | a :: re' =>
      match s with
      | String c s' =>
          if atom_matches a c
          then option_map (String c) (match_here re' s')
          else None
      | EmptyString => None
      end
  end.

(** [regex.FindStringSubmatch(s)[0]]: the leftmost match, [None] when
    [FindStringSubmatch] returns [nil]. *)
Fixpoint FindString (re : regex) (s : string) : option string :=
  match match_here re s with
  | Some m => Some m
  | None =>
      match s with
      | String _ s' => FindString re s'
      | EmptyString => None
      end
  end.

End Regexp.

(** ** The data model ([types/types.go]) *)

Module Types.

(** A [time.Time] without monotonic clock reading is an instant: the
    seconds since year 1 and the nanoseconds within the second. The zero
    value is the instant [0, 0]. *)
Record Time : Type := mkTime { sec : Z; nsec : Z }.

Definition zero_time : Time := mkTime 0 0.

(** [t.Before(u)] and [t.After(u)]: [ts < us || ts == us && t.nsec() < u.nsec()]. *)
Definition Before (t u : Time) : bool :=
  (sec t <? sec u) || ((sec t =? sec u) && (nsec t <? nsec u)).
Definition After (t u : Time) : bool :=
  (sec t >? sec u) || ((sec t =? sec u) && (nsec t >? nsec u)).

(** [types.ObjectMetadata]. *)
Record ObjectMetadata : Type := mkObject {
  Key : string;
  Size : Z;
  LastModified : Time;
  StorageClass : string;
  ETag : string
}.

(** [types.StorageClassStats], whose fields are [Count] and [Size]. *)
Record StorageClassStats : Type := mkStats {
  stats_Count : Z;
  stats_Size : Z
}.

(** [types.BucketSummary]. *)
Record BucketSummary : Type := mkBucketSummary {
  Name : string;
  Region : string;
  CreationDate : Time;
  TotalObjects : Z;
  TotalSize : Z;
  StorageClasses : gmap string StorageClassStats;
  EstimatedCost : float
}.

(** [types.SizeBucket], whose fields are [Label], [Min], [Max] and
    [Count]; [Max = -1] stands for no upper bound. *)
Record SizeBucket : Type := mkSizeBucket {
  Label : string;
  Min : Z;
  Max : Z;
  bucket_Count : Z
}.

(** [types.DateRange]. *)
Record DateRange : Type := mkDateRange {
  Earliest : Time;
  Latest : Time
}.

(** [types.MetadataSummary]; [Dates] is its field [DateRange]. *)
Record MetadataSummary : Type := mkMetadataSummary {
  Objects : list ObjectMetadata;
  FileTypeStats : gmap string Z;
  SizeDistribution : list SizeBucket;
  Dates : DateRange
}.

(** [types.Partition]; [PartitionSize] is its field [TotalSize]. *)
Record Partition : Type := mkPartition {
  Prefix : string;
  Pattern : string;
  ObjectCount : Z;
  PartitionSize : Z;
  Examples : list string
}.

End Types.

(** ** The metadata aggregator ([profiler/metadata.go]) *)

Module Metadata.
Import Types GoString.

Section WithUnicode.

Variable mapUnicodeLower : string -> string.

(** [getFileExtension]. *)
Definition getFileExtension (key : string) : string :=
  let base := Filepath.Base key in
  let ext := Filepath.Ext base in
  if String.eqb ext "" then
    if HasSuffix key "/" then "[directory]" else "[no extension]"
  else ToLower mapUnicodeLower (TrimPrefix ext ".").

(** [summary.FileTypeStats[ext]++]: a missing key reads as [0]. *)
Definition count_extension (ext : string) (m : gmap string Z) : gmap string Z :=
  <[ext := Int64.incr (default 0 (m !! ext))]> m.

(** The body of [for _, obj := range objects] in [AnalyzeMetadata]. *)
Definition analyze_object (summary : MetadataSummary) (obj : ObjectMetadata)
  : MetadataSummary :=
  let ext := getFileExtension (Key obj) in
  let stats := count_extension ext (FileTypeStats summary) in
  let earliest :=
    if Before (LastModified obj) (Earliest (Dates summary))
    then LastModified obj else Earliest (Dates summary) in
  let latest :=
    if After (LastModified obj) (Latest (Dates summary))
    then LastModified obj else Latest (Dates summary) in
  mkMetadataSummary (Objects summary) stats (SizeDistribution summary)
                    (mkDateRange earliest latest).

End WithUnicode.

(** The histogram before any object is counted. *)
Definition initial_buckets : list SizeBucket :=
  [ mkSizeBucket "0-1KB" 0 1024 0;
    mkSizeBucket "1KB-1MB" 1024 (1024 * 1024) 0;
    mkSizeBucket "1MB-100MB" (1024 * 1024) (100 * 1024 * 1024) 0;
    mkSizeBucket "100MB-1GB" (100 * 1024 * 1024) (1024 * 1024 * 1024) 0;
    mkSizeBucket "1GB+" (1024 * 1024 * 1024) (-1) 0 ].

(** The test of one bucket in the inner loop of
    [generateSizeDistribution]. *)
Definition bucket_accepts (b : SizeBucket) (size : Z) : bool :=
  if Max b =? -1 then Min b <=? size
  else (Min b <=? size) && (size <? Max b).

Definition bump (b : SizeBucket) : SizeBucket :=
  mkSizeBucket (Label b) (Min b) (Max b) (Int64.incr (bucket_Count b)).

(** [for i := range buckets { if ... { buckets[i].Count++; break } }]. *)
Fixpoint place (size : Z) (buckets : list SizeBucket) : list SizeBucket :=
  match buckets with
  | [] => []
  | b :: rest =>
      if bucket_accepts b size then bump b :: rest
      else b :: place size rest
  end.

(** [generateSizeDistribution]. *)
Definition generateSizeDistribution (objects : list ObjectMetadata)
  : list SizeBucket :=
  fold_left (fun buckets obj => place (Size obj) buckets) objects
            initial_buckets.

(** [AnalyzeMetadata]. *)
Definition AnalyzeMetadata (mapUnicodeLower : string -> string)
    (objects : list ObjectMetadata) : MetadataSummary :=
  let range0 :=
    match objects with
    | o :: _ => mkDateRange (LastModified o) (LastModified o)
    | [] => mkDateRange zero_time zero_time
    end in
  let summary := mkMetadataSummary objects ∅ [] range0 in
  let summary := fold_left (analyze_object mapUnicodeLower) objects summary in
  mkMetadataSummary (Objects summary) (FileTypeStats summary)
                    (generateSizeDistribution objects) (Dates summary).

End Metadata.

(** ** Maps and [sort.Slice] *)

Module GoRuntime.

(** [for _, v := range m] visits the values of [m] in some order. *)
Definition visits {V : Type} (m : gmap string V) (order : list V) : Prop :=
  order ≡ₚ (map_to_list m).*2.

(** What [sort.Slice(s, less)] leaves in [s]: a permutation of [s] in which
    no element is [less] than one before it. *)
Definition not_before {A : Type} (less : A -> A -> bool) : relation A :=
  fun a b => less b a = false.

#[global] Instance not_before_dec {A : Type} (less : A -> A -> bool)
  : RelDecision (not_before less).
Proof. intros a b. unfold not_before. apply bool_eq_dec. Defined.

Definition ordered_by {A : Type} (less : A -> A -> bool) (l : list A) : Prop :=
  StronglySorted (not_before less) l.

Definition sort_Slice {A : Type} (less : A -> A -> bool) (s res : list A)
  : Prop :=
  res ≡ₚ s /\ ordered_by less res.

End GoRuntime.

(** ** The bucket aggregator ([profiler/bucket.go]) *)

Module Bucket.
Import Types.

(** One element of [result.Contents], its pointers dereferenced with
    [aws.ToString], [aws.ToInt64] and [aws.ToTime]. *)
Record S3Object : Type := mkS3Object {
  s3_Key : string;
  s3_Size : Z;
  s3_LastModified : Time;
  s3_StorageClass : string;
  s3_ETag : string
}.

(** An answer of [ListObjectsV2]: an error, or a page of objects and
    [IsTruncated]. *)
Inductive ListResponse : Type :=
| ListError
| ListPage (contents : list S3Object) (isTruncated : bool).

(** The state of the loop in [listObjects]: the summary the caller passed
    in, the objects collected and [processedCount]. *)
Record ListState : Type := mkListState {
  summary : BucketSummary;
  objects : list ObjectMetadata;
  processedCount : Z
}.

Definition effective_class (storageClass : string) : string :=
  if String.eqb storageClass "" then "STANDARD" else storageClass.

(** The body of [for _, obj := range result.Contents]. *)
Definition process_object (st : ListState) (obj : S3Object) : ListState :=
  let key := s3_Key obj in
  let size := s3_Size obj in
  let storageClass := effective_class (s3_StorageClass obj) in
  let s := summary st in
  let stats := default (mkStats 0 0) (StorageClasses s !! storageClass) in
  let stats := mkStats (Int64.incr (stats_Count stats))
                       (Int64.add (stats_Size stats) size) in
  let s := mkBucketSummary (Name s) (Region s) (CreationDate s)
             (Int64.incr (TotalObjects s))
             (Int64.add (TotalSize s) size)
             (<[storageClass := stats]> (StorageClasses s))
             (EstimatedCost s) in
  mkListState s
    (objects st ++ [mkObject key size (s3_LastModified obj) storageClass
                             (s3_ETag obj)])%list
    (Int64.incr (processedCount st)).

(** The [for] loop of [listObjects], one iteration per answer of the
    client. [None] is the error return; a client without an answer left
    is an error too. *)
Fixpoint listObjects_loop (limit : Z) (responses : list ListResponse)
    (st : ListState) : option ListState :=
  if (limit >? 0) && (processedCount st >=? limit) then Some st
  else
    match responses with
    | [] => None
    | ListError :: _ => None
    | ListPage contents isTruncated :: rest =>
        let st := fold_left process_object contents st in
        if negb isTruncated then Some st
        else listObjects_loop limit rest st
    end.

(** [listObjects]: the summary is updated in place, the objects are
    returned. *)
Definition listObjects (limit : Z) (responses : list ListResponse)
    (s : BucketSummary) : option (BucketSummary * list ObjectMetadata) :=
  match listObjects_loop limit responses (mkListState s [] 0) with
  | Some st => Some (summary st, objects st)
  | None => None
  end.

(** [float64(x)] of an [int64]: the nearest binary64 value, ties to even. *)
Definition float64_of_int64 (z : Z) : float :=
  SF2Prim (binary_normalize prec emax z 0 false).

(** The table of prices per GB and month. *)
Definition pricing : gmap string float :=
  list_to_map
    [ ("STANDARD", 0.023%float);
      ("INTELLIGENT_TIERING", 0.023%float);
      ("STANDARD_IA", 0.0125%float);
      ("ONEZONE_IA", 0.01%float);
      ("GLACIER", 0.004%float);
      ("GLACIER_IR", 0.004%float);
      ("DEEP_ARCHIVE", 0.00099%float) ].

(** The body of [for class, stats := range storageClasses]; [m[k]] of a
    missing key is the zero value. *)
Definition add_class_cost (totalCost : float)
    (entry : string * StorageClassStats) : float :=
  let (class, stats) := entry in
  let sizeGB :=
    (float64_of_int64 (stats_Size stats) / float64_of_int64 (1024 * 1024 * 1024))%float in
  match pricing !! class with
  | Some price => (totalCost + sizeGB * price)%float
  | None => (totalCost + sizeGB * default 0%float (pricing !! "STANDARD"))%float
  end.

(** [calculateCost] when [range] visits the entries in the order given. *)
Definition calculateCost_in (order : list (string * StorageClassStats)) : float :=
  fold_left add_class_cost order 0%float.

(** [calculateCost]: the cost for some visiting order of the map. *)
Definition calculateCost (storageClasses : gmap string StorageClassStats)
    (cost : float) : Prop :=
  exists order, order ≡ₚ map_to_list storageClasses
                /\ cost = calculateCost_in order.

(** [AnalyzeBucket]: [creationDate] is what [getBucketCreationDate]
    returned ([None] for its error), [responses] what the listing calls
    answer. The relation holds of the values returned without error. *)
Definition AnalyzeBucket (limit : Z) (creationDate : option Time)
    (responses : list ListResponse) (bucketName region : string)
    (result : BucketSummary * list ObjectMetadata) : Prop :=
  exists date s objs cost,
    creationDate = Some date
    /\ listObjects limit responses
         (mkBucketSummary bucketName region date 0 0 ∅ 0%float)
       = Some (s, objs)
    /\ calculateCost (StorageClasses s) cost
    /\ result = (mkBucketSummary (Name s) (Region s) (CreationDate s)
                   (TotalObjects s) (TotalSize s) (StorageClasses s) cost,
                 objs).

End Bucket.

(** ** The partition detector ([profiler/partition.go]) *)

Module Partition.
Import Types GoString Regexp GoRuntime.

(** The [patterns] table of [detectDatePartitions], in its order. *)
Definition patterns : list (string * regex) :=
  [ ("year=YYYY/month=MM/day=DD",
     (lits "year=" ++ digits 4 ++ lits "/month=" ++ digits 2
       ++ lits "/day=" ++ digits 2)%list);
    ("year=YYYY/month=MM",
     (lits "year=" ++ digits 4 ++ lits "/month=" ++ digits 2)%list);
    ("YYYY/MM/DD",
     (digits 4 ++ lits "/" ++ digits 2 ++ lits "/" ++ digits 2)%list);
    ("YYYY/MM",
     (digits 4 ++ lits "/" ++ digits 2)%list);
    ("YYYY-MM-DD",
     (digits 4 ++ lits "-" ++ digits 2 ++ lits "-" ++ digits 2)%list);
    ("dt=YYYY-MM-DD",
     (lits "dt=" ++ digits 4 ++ lits "-" ++ digits 2 ++ lits "-" ++ digits 2)%list) ].

(** The two branches on [partitionMap[prefix]] (and [prefixMap[prefix]]):
    an existing partition is updated through its pointer, a new one is
    stored under [mapKey] with [prefix] as its [Prefix]. *)
Definition add_to_group (mapKey prefix patternName : string)
    (obj : ObjectMetadata) (m : gmap string Partition)
  : gmap string Partition :=
  match m !! mapKey with
  | Some partition =>
      <[mapKey :=
          mkPartition (Prefix partition) (Pattern partition)
            (Int64.incr (ObjectCount partition))
            (Int64.add (PartitionSize partition) (Size obj))
            (if (length (Examples partition) <? 3)%nat
             then (Examples partition ++ [Key obj])%list
             else Examples partition)]> m
  | None =>
      <[mapKey := mkPartition prefix patternName 1 (Size obj) [Key obj]]> m
  end.

(** The loop of [groupByPattern]. *)
Definition group_matches (objects : list ObjectMetadata)
    (patternName : string) (re : regex) : gmap string Partition :=
  fold_left
    (fun m obj =>
       match FindString re (Key obj) with
       | Some prefix => add_to_group prefix prefix patternName obj m
       | None => m
       end)
    objects ∅.

(** [partitions[i].Prefix < partitions[j].Prefix]. *)
Definition less_prefix (p q : Partition) : bool :=
  GoString.lt (Prefix p) (Prefix q).

(** [partitions[i].ObjectCount > partitions[j].ObjectCount]. *)
Definition more_objects (p q : Partition) : bool :=
  ObjectCount p >? ObjectCount q.

(** What [groupByPattern] may return: the partitions of the map, visited
    in some order and sorted by [sort.Slice]. *)
Definition groupByPattern_returns (objects : list ObjectMetadata)
    (patternName : string) (re : regex) (res : list Partition) : Prop :=
  exists order,
    visits (group_matches objects patternName re) order
    /\ sort_Slice less_prefix order res.

(** [groupByPattern]. The prefixes of the map are distinct, so the order
    by prefix leaves one result ([groupByPattern_returns_unique] below);
    this is it. *)
Definition groupByPattern (objects : list ObjectMetadata)
    (patternName : string) (re : regex) : list Partition :=
  merge_sort (not_before less_prefix)
    (map_to_list (group_matches objects patternName re)).*2.

(** [totalMatched], summed over the partitions. *)
Definition totalMatched (partitions : list Partition) : Z :=
  fold_left (fun total p => Int64.add total (ObjectCount p)) partitions 0.

(** [float64(totalMatched)/float64(len(objects))], as the exact quotient.
    The division is reached with [len(objects) > 0] only. Both conversions
    are exact below [2^53] and the rounded quotient of two such integers
    exceeds [0.5] exactly when the quotient does; see
    [coverage_float64_agrees]. *)
Definition coverage (matched total : Z) : Q :=
  Qmake matched (Z.to_pos total).

Definition exceeds_half (q : Q) : bool := negb (Qle_bool q (1 # 2)).

(** The same test in binary64 arithmetic. *)
Definition exceeds_half_float64 (matched total : Z) : bool :=
  (0.5 <? Bucket.float64_of_int64 matched / Bucket.float64_of_int64 total)%float.

(** The loop over [patterns] in [detectDatePartitions]. *)
Fixpoint try_patterns (objects : list ObjectMetadata)
    (ps : list (string * regex)) : list Partition :=
  match ps with
  | [] => []
  | (name, re) :: rest =>
      let partitions := groupByPattern objects name re in
      if (0 <? length partitions)%nat
         && exceeds_half (coverage (totalMatched partitions)
                                   (Z.of_nat (length objects)))
      then partitions
      else try_patterns objects rest
  end.

(** [detectDatePartitions]. *)
Definition detectDatePartitions (objects : list ObjectMetadata)
  : list Partition :=
  try_patterns objects patterns.

Definition hierarchical_name : string := "hierarchical (top-level prefix)".

(** The loop of [detectHierarchicalPartitions]. *)
Definition group_top_level (objects : list ObjectMetadata)
  : gmap string Partition :=
  fold_left
    (fun m obj =>
       let parts := Split (Key obj) "/"%char in
       if (1 <? length parts)%nat then
         let prefix := hd "" parts in
         add_to_group prefix (prefix +:+ "/") hierarchical_name obj m
       else m)
    objects ∅.

(** [detectHierarchicalPartitions]: [res] is a value it may return. Equal
    counts leave the order to the map and to [sort.Slice]. *)
Definition detectHierarchicalPartitions (objects : list ObjectMetadata)
    (res : list Partition) : Prop :=
  let prefixMap := group_top_level objects in
  if (size prefixMap <=? 1)%nat then res = []
  else exists order, visits prefixMap order /\ sort_Slice more_objects order res.

(** One of the values [detectHierarchicalPartitions] may return: the map
    in the order of [map_to_list], sorted by a stable merge sort. *)
Definition detectHierarchicalPartitions_run (objects : list ObjectMetadata)
  : list Partition :=
  let prefixMap := group_top_level objects in
  if (size prefixMap <=? 1)%nat then []
  else merge_sort (not_before more_objects)
         (map_to_list prefixMap).*2.

(** [AnalyzePartitions]: [res] is a value it may return. *)
Definition AnalyzePartitions (objects : list ObjectMetadata)
    (res : list Partition) : Prop :=
  match objects with
  | [] => res = []
  | _ :: _ =>
      let datePartitions := detectDatePartitions objects in
      match datePartitions with
      | [] => exists hierarchicalPartitions,
                detectHierarchicalPartitions objects hierarchicalPartitions
                /\ res = ([] ++ datePartitions ++ hierarchicalPartitions)%list
      | _ :: _ => res = ([] ++ datePartitions)%list
      end
  end.

Definition AnalyzePartitions_run (objects : list ObjectMetadata)
  : list Partition :=
  match objects with
  | [] => []
  | _ :: _ =>
      let datePartitions := detectDatePartitions objects in
      match datePartitions with
      | [] => ([] ++ datePartitions ++ detectHierarchicalPartitions_run objects)%list
      | _ :: _ => ([] ++ datePartitions)%list
      end
  end.

End Partition.

(** * Properties *)

(** ** Arithmetic of [int64] *)

Module Int64Facts.
Import Int64.

Lemma wrap_in_range z : in_range (wrap z).
Proof.
  unfold in_range, wrap, min_int64, max_int64.
  pose proof (Z.mod_pos_bound (z + 2 ^ 63) (2 ^ 64) ltac:(lia)). lia.
Qed.

Lemma wrap_id z : in_range z -> wrap z = z.
Proof.
  unfold in_range, wrap, min_int64, max_int64. intros H.
  rewrite Z.mod_small; lia.
Qed.

Lemma wrap_add_l a b : wrap (wrap a + b) = wrap (a + b).
Proof.
  unfold wrap.
  replace ((a + 2 ^ 63) mod 2 ^ 64 - 2 ^ 63 + b + 2 ^ 63)
    with ((a + 2 ^ 63) mod 2 ^ 64 + b) by lia.
  rewrite Zplus_mod_idemp_l. f_equal. f_equal. lia.
Qed.

Lemma wrap_add_r a b : wrap (a + wrap b) = wrap (a + b).
Proof. rewrite (Z.add_comm a (wrap b)), wrap_add_l. f_equal. lia. Qed.

Lemma wrap_wrap a : wrap (wrap a) = wrap a.
Proof. apply wrap_id, wrap_in_range. Qed.


Lemma wrap_of_nat (n : nat) :
  Z.of_nat n <= max_int64 -> wrap (Z.of_nat n) = Z.of_nat n.
Proof.
  intros H. apply wrap_id. unfold in_range, min_int64, max_int64 in *. lia.
Qed.

End Int64Facts.

(** ** Strings and paths *)

Module StringFacts.
Import GoString Filepath.

Lemma bytes_app (s t : string) : bytes (s +:+ t) = (bytes s ++ bytes t)%list.
Proof. induction s as [|c s IH]; simpl; [done|]. unfold bytes in *. simpl. by rewrite IH. Qed.

Lemma bytes_of_bytes (l : list ascii) : bytes (of_bytes l) = l.
Proof. apply list_ascii_of_string_of_list_ascii. Qed.

Lemma of_bytes_bytes (s : string) : of_bytes (bytes s) = s.
Proof. apply string_of_list_ascii_of_string. Qed.

Lemma substring_all (s : string) : substring 0 (String.length s) s = s.
Proof. induction s as [|c s IH]; simpl; [done|]. by rewrite IH. Qed.

Lemma substring_none (s : string) : substring 0 0 s = "".
Proof. by destruct s. Qed.

Lemma TrimPrefix_dot (s : string) : TrimPrefix (String "."%char s) "." = s.
Proof.
  unfold TrimPrefix, HasPrefix. simpl. rewrite substring_none. simpl.
  rewrite Nat.sub_0_r. apply substring_all.
Qed.

Lemma length_of_bytes (l : list ascii) : String.length (of_bytes l) = length l.
Proof. induction l as [|c l IH]; simpl; [done|]. by rewrite IH. Qed.

Lemma substring_last (l : list ascii) (c : ascii) :
  substring (length l) 1 (of_bytes (l ++ [c])) = String c "".
Proof. induction l as [|d l IH]; simpl; done. Qed.

(** A key ends in ['/'] when its last byte is ['/']. *)
Lemma HasSuffix_slash (s : string) :
  HasSuffix s "/" = true <-> exists l, bytes s = (l ++ ["/"%char])%list.
Proof.
  rewrite <- (of_bytes_bytes s) at 1.
  destruct (bytes s) as [|c l _] using rev_ind.
  - split; [done|]. intros [l Hl]. by destruct l.
  - unfold HasSuffix. rewrite length_of_bytes, length_app.
    change (String.length "/") with 1%nat.
    replace (length l + length [c] - 1)%nat with (length l) by (simpl; lia).
    rewrite substring_last.
    replace (1 <=? length l + length [c])%nat with true
      by (symmetry; apply Nat.leb_le; simpl; lia).
    rewrite andb_true_l. split.
    + intros H. apply String.eqb_eq in H. simplify_eq. by exists l.
    + intros [l' Hl']. apply app_inj_tail in Hl' as [_ ->]. done.
Qed.

Definition plain (c : ascii) : Prop :=
  IsPathSeparator c = false /\ c <> "."%char.






Lemma strip_separators_slashes (l : list ascii) :
  Forall (fun c => c = "/"%char) l -> strip_separators l = [].
Proof. induction 1 as [|c l -> _ IH]; simpl; done. Qed.


Lemma of_bytes_nonempty (l : list ascii) : l <> [] -> String.eqb (of_bytes l) "" = false.
Proof. destruct l; [done|]. intros _. simpl. done. Qed.




Lemma lower_byte_id (l : list ascii) :
  existsb is_upper l = false -> map lower_byte l = l.
Proof.
  induction l as [|c l IH]; simpl; [done|].
  intros [Hc Hl]%orb_false_iff. unfold lower_byte at 1. rewrite Hc. by rewrite IH.
Qed.

End StringFacts.

(** ** The file type of a key *)

Module ExtensionFacts.
Import Types GoString Filepath StringFacts Metadata.





Lemma ToLower_ascii (lower : string -> string) (s : string) :
  forallb is_ascii (bytes s) = true ->
  ToLower lower s = of_bytes (map lower_byte (bytes s)).
Proof.
  intros Hs. unfold ToLower. rewrite Hs.
  destruct (existsb is_upper (bytes s)) eqn:Hup; simpl; [done|].
  by rewrite lower_byte_id, of_bytes_bytes.
Qed.






End ExtensionFacts.

(** ** The size histogram *)

Module HistogramFacts.
Import Types Metadata Int64 Int64Facts.

(** The five ranges of the specification, by position: [[0,1KiB)],
    [[1KiB,1MiB)], [[1MiB,100MiB)], [[100MiB,1GiB)], [[1GiB,∞)]. *)
Definition in_range_of (i : nat) (size : Z) : bool :=
  match i with
  | 0%nat => (0 <=? size) && (size <? 1024)
  | 1%nat => (1024 <=? size) && (size <? 1048576)
  | 2%nat => (1048576 <=? size) && (size <? 104857600)
  | 3%nat => (104857600 <=? size) && (size <? 1073741824)
  | 4%nat => 1073741824 <=? size
  | _ => false
  end.

(** The number of objects whose size lies in the range at position [i]. *)
Definition objects_in_range (i : nat) (objects : list ObjectMetadata) : nat :=
  length (filter (fun o => in_range_of i (Size o) = true) objects).

(** The histogram with the given counts. *)
Definition histogram (c0 c1 c2 c3 c4 : Z) : list SizeBucket :=
  [ mkSizeBucket "0-1KB" 0 1024 c0;
    mkSizeBucket "1KB-1MB" 1024 (1024 * 1024) c1;
    mkSizeBucket "1MB-100MB" (1024 * 1024) (100 * 1024 * 1024) c2;
    mkSizeBucket "100MB-1GB" (100 * 1024 * 1024) (1024 * 1024 * 1024) c3;
    mkSizeBucket "1GB+" (1024 * 1024 * 1024) (-1) c4 ].

Lemma histogram_literal (c0 c1 c2 c3 c4 : Z) :
  histogram c0 c1 c2 c3 c4
  = [ mkSizeBucket "0-1KB" 0 1024 c0;
      mkSizeBucket "1KB-1MB" 1024 1048576 c1;
      mkSizeBucket "1MB-100MB" 1048576 104857600 c2;
      mkSizeBucket "100MB-1GB" 104857600 1073741824 c3;
      mkSizeBucket "1GB+" 1073741824 (-1) c4 ].
Proof. reflexivity. Qed.

Definition hit (i : nat) (size : Z) : Z :=
  if in_range_of i size then 1 else 0.

Lemma wrap_hit (a : Z) (i : nat) (size : Z) :
  (if in_range_of i size then incr (wrap a) else wrap a)
  = wrap (a + hit i size).
Proof.
  unfold hit. destruct (in_range_of i size).
  - unfold incr, add. apply wrap_add_l.
  - by rewrite Z.add_0_r.
Qed.

(** One object moves one count, the one of the range its size lies in. *)
Lemma place_histogram (size a0 a1 a2 a3 a4 : Z) :
  place size (histogram (wrap a0) (wrap a1) (wrap a2) (wrap a3) (wrap a4))
  = histogram (wrap (a0 + hit 0 size)) (wrap (a1 + hit 1 size))
              (wrap (a2 + hit 2 size)) (wrap (a3 + hit 3 size))
              (wrap (a4 + hit 4 size)).
Proof.
  rewrite <- !wrap_hit. rewrite !histogram_literal.
  unfold place, bucket_accepts, bump.
  cbn [Min Max bucket_Count Label in_range_of].
  change (-1 =? -1) with true.
  change (1024 =? -1) with false.
  change (1048576 =? -1) with false.
  change (104857600 =? -1) with false.
  change (1073741824 =? -1) with false. cbv iota.
  destruct (Z.leb_spec 0 size), (Z.ltb_spec size 1024),
    (Z.leb_spec 1024 size), (Z.ltb_spec size 1048576),
    (Z.leb_spec 1048576 size), (Z.ltb_spec size 104857600),
    (Z.leb_spec 104857600 size), (Z.ltb_spec size 1073741824),
    (Z.leb_spec 1073741824 size); cbn [andb]; cbv iota;
    try reflexivity; lia.
Qed.

Lemma objects_in_range_cons (i : nat) (o : ObjectMetadata) objs :
  Z.of_nat (objects_in_range i (o :: objs))
  = hit i (Size o) + Z.of_nat (objects_in_range i objs).
Proof.
  unfold objects_in_range, hit. rewrite filter_cons.
  destruct (decide (in_range_of i (Size o) = true)) as [->|Hn].
  - simpl length. lia.
  - destruct (in_range_of i (Size o)); [done|]. lia.
Qed.

Lemma fold_place (objs : list ObjectMetadata) (a0 a1 a2 a3 a4 : Z) :
  fold_left (fun buckets obj => place (Size obj) buckets) objs
    (histogram (wrap a0) (wrap a1) (wrap a2) (wrap a3) (wrap a4))
  = histogram (wrap (a0 + Z.of_nat (objects_in_range 0 objs)))
              (wrap (a1 + Z.of_nat (objects_in_range 1 objs)))
              (wrap (a2 + Z.of_nat (objects_in_range 2 objs)))
              (wrap (a3 + Z.of_nat (objects_in_range 3 objs)))
              (wrap (a4 + Z.of_nat (objects_in_range 4 objs))).
Proof.
  revert a0 a1 a2 a3 a4. induction objs as [|o objs IH]; intros.
  - simpl. by rewrite !Z.add_0_r.
  - cbn [fold_left]. rewrite place_histogram, IH, !objects_in_range_cons.
    by rewrite !Z.add_assoc.
Qed.

Lemma objects_in_range_le (i : nat) objs :
  (objects_in_range i objs <= length objs)%nat.
Proof. apply length_filter. Qed.

(** The counts of the histogram, when the slice has a length an [int64]
    holds. *)
Lemma generateSizeDistribution_counts (objs : list ObjectMetadata) :
  Z.of_nat (length objs) <= max_int64 ->
  generateSizeDistribution objs
  = histogram (Z.of_nat (objects_in_range 0 objs))
              (Z.of_nat (objects_in_range 1 objs))
              (Z.of_nat (objects_in_range 2 objs))
              (Z.of_nat (objects_in_range 3 objs))
              (Z.of_nat (objects_in_range 4 objs)).
Proof.
  intros Hlen. unfold generateSizeDistribution.
  change initial_buckets
    with (histogram (wrap 0) (wrap 0) (wrap 0) (wrap 0) (wrap 0)).
  rewrite fold_place, !Z.add_0_l.
  rewrite !wrap_of_nat; [done|..];
    (etrans; [apply inj_le, objects_in_range_le|done]).
Qed.

(** A size that is not negative lies in one range. *)
Lemma one_range (size : Z) :
  0 <= size ->
  hit 0 size + hit 1 size + hit 2 size + hit 3 size + hit 4 size = 1.
Proof.
  intros H. unfold hit, in_range_of.
  destruct (Z.leb_spec 0 size), (Z.ltb_spec size 1024),
    (Z.leb_spec 1024 size), (Z.ltb_spec size 1048576),
    (Z.leb_spec 1048576 size), (Z.ltb_spec size 104857600),
    (Z.leb_spec 104857600 size), (Z.ltb_spec size 1073741824),
    (Z.leb_spec 1073741824 size); simpl; lia.
Qed.

Lemma ranges_cover (objs : list ObjectMetadata) :
  Forall (fun o => 0 <= Size o) objs ->
  Z.of_nat (objects_in_range 0 objs) + Z.of_nat (objects_in_range 1 objs)
  + Z.of_nat (objects_in_range 2 objs) + Z.of_nat (objects_in_range 3 objs)
  + Z.of_nat (objects_in_range 4 objs) = Z.of_nat (length objs).
Proof.
  induction 1 as [|o objs Ho _ IH]; [done|].
  rewrite !objects_in_range_cons. pose proof (one_range _ Ho).
  simpl length. lia.
Qed.

(** The sum of the counts of a histogram. *)
Definition total_count (buckets : list SizeBucket) : Z :=
  foldr (fun b acc => bucket_Count b + acc) 0 buckets.

(** C4: for a collection whose sizes are not negative (a slice, so of a
    length an [int64] holds), the counts of the five buckets sum to the
    number of objects; the count of each bucket is the number of objects
    whose size lies in its range; every size that is not negative lies in
    exactly one of the five ranges; and the size 1024 is counted in the
    second bucket, [[1KiB,1MiB)], not in the first, as every boundary lies
    in the range it opens. *)
Theorem histogram_counts_every_object (objects : list ObjectMetadata) :
  Z.of_nat (length objects) <= max_int64 ->
  Forall (fun o => 0 <= Size o) objects ->
  total_count (generateSizeDistribution objects) = Z.of_nat (length objects)
  /\ map bucket_Count (generateSizeDistribution objects)
     = map (fun i => Z.of_nat (objects_in_range i objects)) (seq 0 5)
  /\ (forall size, 0 <= size ->
        exists i, (i < 5)%nat /\ in_range_of i size = true
                  /\ forall j, in_range_of j size = true -> j = i)
  /\ (forall o, Size o = 1024 ->
        map bucket_Count (generateSizeDistribution [o]) = [0; 1; 0; 0; 0])
  /\ map (fun i => in_range_of i 1024) (seq 0 5)
     = [false; true; false; false; false]
  /\ in_range_of 2 1048576 = true
  /\ in_range_of 3 104857600 = true
  /\ in_range_of 4 1073741824 = true.
Proof.
  intros Hlen Hsize. rewrite generateSizeDistribution_counts by done.
  split; [|split; [done|split; [|split; [|done]]]].
  - unfold total_count, histogram. cbn [foldr bucket_Count].
    pose proof (ranges_cover objects Hsize). lia.
  - intros size H.
    destruct (Z.ltb_spec size 1024); [exists 0%nat|
    destruct (Z.ltb_spec size 1048576); [exists 1%nat|
    destruct (Z.ltb_spec size 104857600); [exists 2%nat|
    destruct (Z.ltb_spec size 1073741824); [exists 3%nat|exists 4%nat]]]];
    (split; [lia|split; [unfold in_range_of; lia|]]);
    intros [|[|[|[|[|j]]]]]; unfold in_range_of; try done; lia.
  - intros o Ho. unfold generateSizeDistribution. simpl. unfold place.
    unfold bucket_accepts. cbn [Min Max initial_buckets]. rewrite Ho. done.
Qed.

Lemma histogram_counts_every_object_witness :
  let objects :=
    [ mkObject "a" 1024 zero_time "STANDARD" "";
      mkObject "b" 0 zero_time "STANDARD" "";
      mkObject "c" 1073741824 zero_time "STANDARD" "" ] in
  total_count (generateSizeDistribution objects) = 3
  /\ map bucket_Count (generateSizeDistribution objects) = [1; 1; 0; 0; 1].
Proof.
  intros objects.
  assert (H1 : Z.of_nat (length objects) <= max_int64) by (vm_compute; discriminate).
  assert (H2 : Forall (fun o => 0 <= Size o) objects)
    by (repeat constructor; simpl; lia).
  destruct (histogram_counts_every_object objects H1 H2) as (Ht & Hc & _).
  split; [exact Ht|exact Hc].
Defined.

End HistogramFacts.

(** ** The date range *)

Module DateFacts.
Import Types Metadata.

Lemma Before_spec (t u : Time) :
  Before t u = true <-> sec t < sec u \/ (sec t = sec u /\ nsec t < nsec u).
Proof.
  unfold Before. rewrite orb_true_iff, andb_true_iff.
  rewrite !Z.ltb_lt, Z.eqb_eq. done.
Qed.

Lemma After_Before (t u : Time) : After t u = Before u t.
Proof.
  unfold After, Before. rewrite !Z.gtb_ltb, (Z.eqb_sym (sec t)). done.
Qed.

Lemma Before_false (t u : Time) :
  Before t u = false <-> sec u < sec t \/ (sec u = sec t /\ nsec u <= nsec t).
Proof.
  rewrite <- not_true_iff_false, Before_spec. lia.
Qed.

(** The two instants are one when neither is before the other. *)
Lemma Before_antisym (t u : Time) :
  Before t u = false -> Before u t = false -> t = u.
Proof.
  rewrite !Before_false. destruct t, u; simpl. intros ? ?.
  f_equal; lia.
Qed.

(** The range after the loop, as a function of the range before it. *)
Definition track (range : DateRange) (t : Time) : DateRange :=
  mkDateRange (if Before t (Earliest range) then t else Earliest range)
              (if After t (Latest range) then t else Latest range).

Lemma Dates_fold (lower : string -> string) (objs : list ObjectMetadata)
    (s : MetadataSummary) :
  Dates (fold_left (analyze_object lower) objs s)
  = fold_left track (map LastModified objs) (Dates s).
Proof. revert s. induction objs as [|o objs IH]; intros s; simpl; [done|]. by rewrite IH. Qed.

Lemma track_earliest (times : list Time) (range : DateRange) :
  let e := Earliest (fold_left track times range) in
  In e (Earliest range :: times)
  /\ forall t, In t (Earliest range :: times) -> Before t e = false.
Proof.
  revert range. induction times as [|u times IH]; intros range.
  - simpl. split; [by left|]. intros t [<-|[]]. apply Before_false. lia.
  - cbn [fold_left]. destruct (IH (track range u)) as [Hin Hlow]. split.
    + destruct Hin as [Hin|Hin]; [|by right; right].
      rewrite <- Hin. simpl. destruct (Before u (Earliest range)); [right|]; by left.
    + intros t Ht.
      assert (Hnew : Before (Earliest (track range u))
                       (Earliest (fold_left track times (track range u))) = false)
        by (apply Hlow; by left).
      destruct Ht as [<-|[<-|Ht]]; [| |apply Hlow; by right].
      * simpl in Hnew. destruct (Before u (Earliest range)) eqn:Hb.
        -- apply Before_spec in Hb. apply Before_false in Hnew.
           apply Before_false. lia.
        -- done.
      * simpl in Hnew. destruct (Before u (Earliest range)) eqn:Hb; [done|].
        apply Before_false in Hb. apply Before_false in Hnew.
        apply Before_false. lia.
Qed.

Lemma track_latest (times : list Time) (range : DateRange) :
  let e := Latest (fold_left track times range) in
  In e (Latest range :: times)
  /\ forall t, In t (Latest range :: times) -> After t e = false.
Proof.
  revert range. induction times as [|u times IH]; intros range.
  - simpl. split; [by left|]. intros t [<-|[]]. rewrite After_Before.
    apply Before_false. lia.
  - cbn [fold_left]. destruct (IH (track range u)) as [Hin Hlow]. split.
    + destruct Hin as [Hin|Hin]; [|by right; right].
      rewrite <- Hin. simpl. destruct (After u (Latest range)); [right|]; by left.
    + intros t Ht.
      assert (Hnew : After (Latest (track range u))
                       (Latest (fold_left track times (track range u))) = false)
        by (apply Hlow; by left).
      destruct Ht as [<-|[<-|Ht]]; [| |apply Hlow; by right].
      * simpl in Hnew. rewrite !After_Before in *.
        destruct (Before (Latest range) u) eqn:Hb.
        -- apply Before_spec in Hb. apply Before_false in Hnew.
           apply Before_false. lia.
        -- done.
      * simpl in Hnew. rewrite !After_Before in *.
        destruct (Before (Latest range) u) eqn:Hb; [done|].
        apply Before_false in Hb. apply Before_false in Hnew.
        apply Before_false. lia.
Qed.

(** C9: for a collection that is not empty, [Earliest] is a
    [LastModified] of the collection that no [LastModified] is before, and
    [Latest] one that no [LastModified] is after (the minimum and the
    maximum: an instant with that property is the one found); for the
    empty collection both are the zero time. *)
Theorem date_range_is_min_and_max (lower : string -> string)
    (objects : list ObjectMetadata) :
  let range := Dates (AnalyzeMetadata lower objects) in
  let times := map LastModified objects in
  (objects <> [] ->
     In (Earliest range) times
     /\ (forall t, In t times -> Before t (Earliest range) = false)
     /\ (forall m, In m times -> (forall t, In t times -> Before t m = false) ->
                   Earliest range = m)
     /\ In (Latest range) times
     /\ (forall t, In t times -> After t (Latest range) = false)
     /\ (forall m, In m times -> (forall t, In t times -> After t m = false) ->
                   Latest range = m))
  /\ (objects = [] -> range = mkDateRange zero_time zero_time).
Proof.
  intros range times. split; [|by intros ->].
  intros Hne. destruct objects as [|o objs]; [done|].
  assert (Hr : range
               = fold_left track times (mkDateRange (LastModified o) (LastModified o))).
  { unfold range, AnalyzeMetadata. cbn [Dates]. by rewrite Dates_fold. }
  rewrite Hr.
  destruct (track_earliest times (mkDateRange (LastModified o) (LastModified o)))
    as [He1 He2].
  destruct (track_latest times (mkDateRange (LastModified o) (LastModified o)))
    as [Hl1 Hl2].
  cbn [Earliest Latest] in *.
  assert (Hsub : forall t, In t (LastModified o :: times) -> In t times).
  { intros t [<-|Ht]; [by left|done]. }
  assert (HE : forall t, In t times ->
                 Before t (Earliest (fold_left track times
                   (mkDateRange (LastModified o) (LastModified o)))) = false)
    by (intros t Ht; apply He2; by right).
  assert (HL : forall t, In t times ->
                 After t (Latest (fold_left track times
                   (mkDateRange (LastModified o) (LastModified o)))) = false)
    by (intros t Ht; apply Hl2; by right).
  repeat split; auto.
  - intros m Hm Hmin. apply Before_antisym; auto.
  - intros m Hm Hmax. apply Before_antisym.
    + rewrite <- After_Before. auto.
    + rewrite <- After_Before. auto.
Qed.

Lemma date_range_is_min_and_max_witness :
  let objects :=
    [ mkObject "a" 1 (mkTime 20 5) "STANDARD" "";
      mkObject "b" 2 (mkTime 10 7) "STANDARD" "";
      mkObject "c" 3 (mkTime 20 9) "STANDARD" "" ] in
  In (Earliest (Dates (AnalyzeMetadata (fun s => s) objects)))
     (map LastModified objects)
  /\ Dates (AnalyzeMetadata (fun s => s) objects)
     = mkDateRange (mkTime 10 7) (mkTime 20 9).
Proof.
  intros objects.
  destruct (date_range_is_min_and_max (fun s => s) objects) as [H _].
  destruct (H ltac:(discriminate)) as (H1 & _).
  split; [exact H1|reflexivity].
Defined.

End DateFacts.

(** ** Folds that group the elements of a list in a map *)

Module GroupBy.
Import Int64 Int64Facts.

(** The sum of a weight over a list of values. *)
Definition sum_of {V : Type} (w : V -> Z) (l : list V) : Z :=
  foldr (fun v acc => w v + acc) 0 l.

Lemma sum_of_app {V : Type} (w : V -> Z) (l1 l2 : list V) :
  sum_of w (l1 ++ l2) = sum_of w l1 + sum_of w l2.
Proof. induction l1 as [|v l1 IH]; simpl; [done|]. rewrite IH. lia. Qed.

Lemma sum_of_perm {V : Type} (w : V -> Z) (l1 l2 : list V) :
  l1 ≡ₚ l2 -> sum_of w l1 = sum_of w l2.
Proof. induction 1; simpl; lia. Qed.

Lemma sum_of_nonneg {V : Type} (w : V -> Z) (l : list V) :
  (forall v, In v l -> 0 <= w v) -> 0 <= sum_of w l.
Proof.
  induction l as [|v l IH]; simpl; [lia|]. intros H.
  pose proof (H v (or_introl eq_refl)). 
  assert (0 <= sum_of w l) by (apply IH; intros; apply H; by right). lia.
Qed.

(** The sum of a weight over the values of a map. *)
Definition msum {V : Type} (w : V -> Z) (m : gmap string V) : Z :=
  sum_of w (map_to_list m).*2.

Lemma msum_empty {V : Type} (w : V -> Z) : msum w (∅ : gmap string V) = 0.
Proof. unfold msum. by rewrite map_to_list_empty. Qed.

Lemma msum_insert_None {V : Type} (w : V -> Z) (m : gmap string V) k v :
  m !! k = None -> msum w (<[k := v]> m) = w v + msum w m.
Proof.
  intros H. unfold msum.
  rewrite (sum_of_perm w _ ((k, v) :: map_to_list m).*2); [done|].
  apply fmap_Permutation. by apply map_to_list_insert.
Qed.

Lemma msum_delete {V : Type} (w : V -> Z) (m : gmap string V) k v :
  m !! k = Some v -> msum w m = w v + msum w (delete k m).
Proof.
  intros H. unfold msum.
  rewrite <- (sum_of_perm w ((k, v) :: map_to_list (delete k m)).*2); [done|].
  apply fmap_Permutation. by apply map_to_list_delete.
Qed.

Lemma msum_insert_Some {V : Type} (w : V -> Z) (m : gmap string V) k v old :
  m !! k = Some old -> msum w (<[k := v]> m) = w v + msum w m - w old.
Proof.
  intros H. rewrite (msum_delete w m k old H), <- insert_delete_eq.
  rewrite msum_insert_None by apply lookup_delete_eq. lia.
Qed.

Lemma msum_lookup_le {V : Type} (w : V -> Z) (m : gmap string V) k v :
  (forall k' v', m !! k' = Some v' -> 0 <= w v') ->
  m !! k = Some v -> w v <= msum w m.
Proof.
  intros Hpos H. rewrite (msum_delete w m k v H).
  assert (0 <= msum w (delete k m)); [|lia].
  apply sum_of_nonneg. intros v' Hin.
  apply in_map_iff in Hin as ([k' v''] & <- & Hin). simpl.
  apply list_elem_of_In, elem_of_map_to_list in Hin.
  apply lookup_delete_Some in Hin as [_ Hin]. eauto.
Qed.

Section GroupFold.

Context {A V : Type}.

(** The key an element is stored under, the value stored for the first
    element of a key, and the update of a value by one more element. *)
Variable key : A -> option string.
Variable init : A -> V.
Variable step : V -> A -> V.

Definition upsert (m : gmap string V) (a : A) : gmap string V :=
  match key a with
  | Some k =>
      <[k := match m !! k with Some v => step v a | None => init a end]> m
  | None => m
  end.

Definition group (l : list A) : gmap string V := fold_left upsert l ∅.

(** The elements stored under [k], in the order of the list. *)
Definition members (k : string) (l : list A) : list A :=
  filter (fun a => key a = Some k) l.

Definition summary_of (l : list A) : option V :=
  match l with
  | [] => None
  | a :: rest => Some (fold_left step rest (init a))
  end.

Lemma group_snoc (l : list A) (a : A) : group (l ++ [a]) = upsert (group l) a.
Proof. unfold group. by rewrite fold_left_app. Qed.

Lemma summary_of_snoc (l : list A) (a : A) :
  summary_of (l ++ [a])
  = Some match summary_of l with Some v => step v a | None => init a end.
Proof. destruct l as [|b l]; simpl; [done|]. by rewrite fold_left_app. Qed.

(** What the map holds under a key: the fold of the members of the key. *)
Lemma group_lookup (l : list A) (k : string) :
  group l !! k = summary_of (members k l).
Proof.
  induction l as [|a l IH] using rev_ind; [done|].
  rewrite group_snoc. unfold members, upsert in *. rewrite filter_app, filter_cons, filter_nil.
  destruct (key a) as [k'|] eqn:Hk.
  - destruct (decide (k' = k)) as [->|Hne].
    + rewrite decide_True by done. rewrite lookup_insert_eq, summary_of_snoc, IH. done.
    + rewrite decide_False by congruence. rewrite lookup_insert_ne, app_nil_r by done. done.
  - rewrite decide_False by congruence. rewrite app_nil_r. done.
Qed.

Lemma group_lookup_None (l : list A) (k : string) :
  group l !! k = None <-> forall a, In a l -> key a <> Some k.
Proof.
  rewrite group_lookup. unfold members. split.
  - intros H a Ha Hk. destruct (filter _ l) as [|b r] eqn:Hf; [|done].
    assert (a ∈ filter (fun a => key a = Some k) l)
      by (apply list_elem_of_filter; split; [done|by apply list_elem_of_In]).
    rewrite Hf in *. by apply not_elem_of_nil in H0.
  - intros H. destruct (filter _ l) as [|b r] eqn:Hf; [done|].
    assert (Hb : b ∈ filter (fun a => key a = Some k) l) by (rewrite Hf; left).
    apply list_elem_of_filter in Hb as [Hb1 Hb2]. apply list_elem_of_In in Hb2.
    by destruct (H b Hb2).
Qed.

(** A weight of the values that each element adds to, in [int64]. *)
Variable w : V -> Z.
Variable d : A -> Z.
Hypothesis w_init : forall a, w (init a) = wrap (d a).
Hypothesis w_step : forall v a, w (step v a) = wrap (w v + d a).

(** The sum of [d] over the elements that have a key. *)
Definition keyed_total (l : list A) : Z :=
  sum_of (fun a => match key a with Some _ => d a | None => 0 end) l.

(** The weights of the map and the total agree as [int64] values. *)
Lemma msum_group_wrap (l : list A) :
  wrap (msum w (group l)) = wrap (keyed_total l).
Proof.
  induction l as [|a l IH] using rev_ind;
    [unfold group; simpl; by rewrite msum_empty|].
  rewrite group_snoc. unfold keyed_total in *. rewrite sum_of_app. simpl.
  unfold upsert. destruct (key a) as [k|]; [|by rewrite !Z.add_0_r].
  rewrite Z.add_0_r, <- wrap_add_l, <- IH, wrap_add_l.
  destruct (group l !! k) as [v|] eqn:Hv.
  - rewrite (msum_insert_Some w _ k _ v Hv), w_step.
    replace (wrap (w v + d a) + msum w (group l) - w v)
      with (msum w (group l) - w v + wrap (w v + d a)) by lia.
    rewrite wrap_add_r. f_equal. lia.
  - rewrite (msum_insert_None w _ k _ Hv), w_init.
    rewrite (Z.add_comm (wrap (d a))), wrap_add_r. done.
Qed.

(** Without overflow they are equal. *)
Lemma msum_group_exact (l : list A) :
  (forall a, In a l -> 0 <= d a) ->
  keyed_total l <= max_int64 ->
  (forall k v, group l !! k = Some v -> 0 <= w v)
  /\ msum w (group l) = keyed_total l.
Proof.
  induction l as [|a l IH] using rev_ind; intros Hd Hmax.
  { unfold group; simpl. split; [intros k v H; by rewrite lookup_empty in H|by rewrite msum_empty]. }
  assert (Hda : 0 <= d a) by (apply Hd, in_or_app; right; by left).
  assert (Hl : 0 <= keyed_total l).
  { apply sum_of_nonneg. intros b Hb. destruct (key b); [|done].
    apply Hd, in_or_app. by left. }
  unfold keyed_total in Hmax. rewrite sum_of_app in Hmax. simpl in Hmax.
  fold (keyed_total l) in Hmax.
  destruct IH as [IH1 IH2].
  { intros b Hb. apply Hd, in_or_app. by left. }
  { destruct (key a); lia. }
  rewrite group_snoc. unfold keyed_total at 1. rewrite sum_of_app. simpl.
  fold (keyed_total l). unfold upsert.
  destruct (key a) as [k|]; [|split; [done|lia]].
  destruct (group l !! k) as [v|] eqn:Hv.
  - pose proof (msum_lookup_le w _ k v IH1 Hv) as Hle.
    pose proof (IH1 k v Hv) as Hv0.
    assert (Hw : w (step v a) = w v + d a).
    { rewrite w_step. apply wrap_id.
      unfold in_range, min_int64, max_int64 in *. lia. }
    split.
    + intros k' v' H. destruct (decide (k = k')) as [<-|Hne].
      * rewrite lookup_insert_eq in H. simplify_eq. lia.
      * rewrite lookup_insert_ne in H by done. eauto.
    + rewrite (msum_insert_Some w _ k _ v Hv), Hw. lia.
  - assert (Hw : w (init a) = d a).
    { rewrite w_init. apply wrap_id.
      unfold in_range, min_int64, max_int64 in *. lia. }
    split.
    + intros k' v' H. destruct (decide (k = k')) as [<-|Hne].
      * rewrite lookup_insert_eq in H. simplify_eq. lia.
      * rewrite lookup_insert_ne in H by done. eauto.
    + rewrite (msum_insert_None w _ k _ Hv), Hw. lia.
Qed.

End GroupFold.

End GroupBy.

(** ** The bucket summary *)

Module BucketFacts.
Import Types Bucket Int64 Int64Facts GroupBy.

(** The object [listObjects] collects for an element of a page. *)
Definition to_metadata (obj : S3Object) : ObjectMetadata :=
  mkObject (s3_Key obj) (s3_Size obj) (s3_LastModified obj)
           (effective_class (s3_StorageClass obj)) (s3_ETag obj).

(** The statistics of a class as a fold over its objects. *)
Definition class_key (o : ObjectMetadata) : option string :=
  Some (StorageClass o).
Definition class_init (o : ObjectMetadata) : StorageClassStats :=
  mkStats (incr 0) (add 0 (Size o)).
Definition class_step (st : StorageClassStats) (o : ObjectMetadata)
  : StorageClassStats :=
  mkStats (incr (stats_Count st)) (add (stats_Size st) (Size o)).

Definition classes_of (objs : list ObjectMetadata)
  : gmap string StorageClassStats :=
  group class_key class_init class_step objs.

(** The summary and the objects after a run of the loop body are those of
    the objects collected. *)
Definition aggregated (s0 : BucketSummary) (st : ListState) : Prop :=
  summary st
  = mkBucketSummary (Name s0) (Region s0) (CreationDate s0)
      (wrap (Z.of_nat (length (objects st))))
      (wrap (sum_of Size (objects st)))
      (classes_of (objects st))
      (EstimatedCost s0).

Definition start (s0 : BucketSummary) : ListState := mkListState s0 [] 0.

Lemma process_objects_aggregated (s0 : BucketSummary) (raws : list S3Object) :
  TotalObjects s0 = 0 -> TotalSize s0 = 0 -> StorageClasses s0 = ∅ ->
  let st := fold_left process_object raws (start s0) in
  aggregated s0 st /\ objects st = map to_metadata raws.
Proof.
  intros H1 H2 H3. induction raws as [|o raws IH] using rev_ind.
  - simpl. split; [|done]. unfold aggregated. simpl.
    destruct s0; simpl in *; subst. done.
  - rewrite fold_left_app. cbn [fold_left]. cbv zeta in IH.
    destruct IH as [IHa IHo].
    set (st := fold_left process_object raws (start s0)) in *.
    split.
    + unfold aggregated, process_object. cbn [summary objects].
      rewrite IHa. cbn [Name Region CreationDate TotalObjects TotalSize
                        StorageClasses EstimatedCost].
      f_equal.
      * rewrite length_app. simpl. unfold incr, add.
        rewrite wrap_add_l. f_equal. lia.
      * rewrite sum_of_app. simpl. unfold add. rewrite wrap_add_l.
        f_equal. lia.
      * unfold classes_of. rewrite group_snoc. unfold upsert, class_key.
        cbn [StorageClass]. f_equal.
        match goal with |- context [?m !! ?k] => destruct (m !! k) end; done.
    + unfold process_object. cbn [objects]. rewrite IHo, map_app. done.
Qed.

(** The loop of [listObjects] runs the body over some of the elements the
    client answered, in their order. *)
Lemma listObjects_loop_processes (limit : Z) (responses : list ListResponse)
    (st st' : ListState) :
  listObjects_loop limit responses st = Some st' ->
  exists raws, st' = fold_left process_object raws st.
Proof.
  revert st. induction responses as [|r responses IH]; intros st; simpl.
  - destruct ((limit >? 0) && (processedCount st >=? limit)); [|done].
    intros [= <-]. by exists [].
  - destruct ((limit >? 0) && (processedCount st >=? limit)).
    { intros [= <-]. by exists []. }
    destruct r as [|contents isTruncated]; [done|].
    destruct isTruncated; simpl.
    + intros H. apply IH in H as [raws ->]. exists (contents ++ raws)%list.
      by rewrite fold_left_app.
    + intros [= <-]. by exists contents.
Qed.

Lemma listObjects_aggregated (limit : Z) (responses : list ListResponse)
    (s0 s : BucketSummary) (objs : list ObjectMetadata) :
  TotalObjects s0 = 0 -> TotalSize s0 = 0 -> StorageClasses s0 = ∅ ->
  listObjects limit responses s0 = Some (s, objs) ->
  s = mkBucketSummary (Name s0) (Region s0) (CreationDate s0)
        (wrap (Z.of_nat (length objs))) (wrap (sum_of Size objs))
        (classes_of objs) (EstimatedCost s0)
  /\ exists raws, objs = map to_metadata raws.
Proof.
  intros H1 H2 H3. unfold listObjects.
  destruct (listObjects_loop limit responses (mkListState s0 [] 0)) as [st|] eqn:Hl;
    [|done].
  intros [= <- <-]. apply listObjects_loop_processes in Hl as [raws ->].
  destruct (process_objects_aggregated s0 raws H1 H2 H3) as [Ha Ho].
  split; [exact Ha|by exists raws].
Qed.

Lemma effective_class_nonempty (c : string) : effective_class c <> "".
Proof. unfold effective_class. destruct (String.eqb_spec c ""); done. Qed.

Lemma class_count_init (o : ObjectMetadata) :
  stats_Count (class_init o) = wrap 1.
Proof. done. Qed.

Lemma class_count_step st (o : ObjectMetadata) :
  stats_Count (class_step st o) = wrap (stats_Count st + 1).
Proof. done. Qed.

Lemma class_size_init (o : ObjectMetadata) :
  stats_Size (class_init o) = wrap (Size o).
Proof. done. Qed.

Lemma class_size_step st (o : ObjectMetadata) :
  stats_Size (class_step st o) = wrap (stats_Size st + Size o).
Proof. done. Qed.

Lemma keyed_total_count (objs : list ObjectMetadata) :
  keyed_total class_key (fun _ => 1) objs = Z.of_nat (length objs).
Proof.
  unfold keyed_total. induction objs as [|o objs IH]; simpl in *; [done|lia].
Qed.

Lemma keyed_total_size (objs : list ObjectMetadata) :
  keyed_total class_key Size objs = sum_of Size objs.
Proof.
  unfold keyed_total. induction objs as [|o objs IH]; simpl in *; [done|lia].
Qed.

(** The count of a class is the number of its objects. *)
Lemma fold_class_step_count (rest : list ObjectMetadata) st :
  stats_Count (fold_left class_step rest st)
  = wrap (stats_Count st + Z.of_nat (length rest))
    \/ (rest = [] /\ fold_left class_step rest st = st).
Proof.
  revert st. induction rest as [|o rest IH]; intros st; [by right|].
  left. cbn [fold_left]. destruct (IH (class_step st o)) as [->|[-> ->]].
  - rewrite class_count_step, wrap_add_l. f_equal. simpl length. lia.
  - cbn [fold_left]. rewrite class_count_step. done.
Qed.

Lemma classes_of_count (objs : list ObjectMetadata) (class : string) st :
  classes_of objs !! class = Some st ->
  stats_Count st
  = wrap (Z.of_nat (length (filter (fun o => StorageClass o = class) objs))).
Proof.
  unfold classes_of. rewrite group_lookup. unfold members, class_key.
  rewrite (list_filter_iff (fun o => Some (StorageClass o) = Some class)
             (fun o => StorageClass o = class))
    by (intros o; split; congruence).
  destruct (filter _ objs) as [|o rest]; [done|].
  cbn [summary_of]. intros [= <-].
  destruct (fold_class_step_count rest (class_init o)) as [->|[-> ->]].
  - rewrite class_count_init, wrap_add_l. f_equal. simpl length. lia.
  - done.
Qed.

Lemma AnalyzeBucket_aggregated (limit : Z) (creationDate : option Time)
    (responses : list ListResponse) (bucketName region : string)
    (s : BucketSummary) (objs : list ObjectMetadata) :
  AnalyzeBucket limit creationDate responses bucketName region (s, objs) ->
  TotalObjects s = wrap (Z.of_nat (length objs))
  /\ TotalSize s = wrap (sum_of Size objs)
  /\ StorageClasses s = classes_of objs
  /\ calculateCost (StorageClasses s) (EstimatedCost s)
  /\ exists raws, objs = map to_metadata raws.
Proof.
  intros (date & s' & objs' & cost & _ & Hl & Hc & [= -> ->]).
  apply listObjects_aggregated in Hl as [-> Hraws]; [|done..].
  cbn [TotalObjects TotalSize StorageClasses EstimatedCost] in *. done.
Qed.

(** C3, as stated, fails: two objects of [2^62] bytes have sizes that sum
    to [2^63], and the [int64] total is [-2^63]. *)
Lemma total_size_wraps_around :
  let big := mkS3Object "a" (2 ^ 62) zero_time "" "" in
  exists s objs,
    AnalyzeBucket 0 (Some zero_time) [ListPage [big; big] false] "b" "r" (s, objs)
    /\ Forall (fun o => 0 <= Size o) objs
    /\ sum_of Size objs = 2 ^ 63
    /\ TotalSize s = - 2 ^ 63.
Proof.
  intros big.
  eexists _, _. split.
  - exists zero_time. eexists _, _, _. split; [reflexivity|].
    split; [vm_compute; reflexivity|].
    split; [eexists; split; reflexivity|reflexivity].
  - split; [repeat constructor; simpl; lia|]. split; reflexivity.
Qed.

(** C3, amended: for the summary and the objects [AnalyzeBucket] returns
    (the objects a slice, so of a length an [int64] holds),
    [TotalObjects] is the number of objects and the sum of the counts of
    the classes; [TotalSize] is the sum of the sizes, and the sum of the
    sizes of the classes, as [int64] values (modulo [2^64]), and exactly
    so when no size is negative and the sizes sum to at most [2^63 - 1];
    an element without storage class is an object of class ["STANDARD"],
    no class is empty, and the count of a class is the number of its
    objects. *)
Theorem bucket_totals_match_objects (limit : Z) (creationDate : option Time)
    (responses : list ListResponse) (bucketName region : string)
    (s : BucketSummary) (objs : list ObjectMetadata) :
  AnalyzeBucket limit creationDate responses bucketName region (s, objs) ->
  Z.of_nat (length objs) <= max_int64 ->
  (TotalObjects s = Z.of_nat (length objs)
   /\ msum stats_Count (StorageClasses s) = TotalObjects s)
  /\ (TotalSize s = wrap (sum_of Size objs)
      /\ wrap (msum stats_Size (StorageClasses s)) = TotalSize s)
  /\ (Forall (fun o => 0 <= Size o) objs -> sum_of Size objs <= max_int64 ->
      TotalSize s = sum_of Size objs
      /\ msum stats_Size (StorageClasses s) = TotalSize s)
  /\ (exists raws, objs = map to_metadata raws)
  /\ StorageClasses s !! "" = None
  /\ (forall class st,
        StorageClasses s !! class = Some st ->
        stats_Count st
        = Z.of_nat (length (filter (fun o => StorageClass o = class) objs))).
Proof.
  intros HA Hlen.
  apply AnalyzeBucket_aggregated in HA as (HO & HS & HC & _ & Hraws).
  rewrite HO, HS, HC. unfold classes_of.
  assert (Hcount : msum stats_Count (group class_key class_init class_step objs)
                   = Z.of_nat (length objs)).
  { rewrite <- keyed_total_count.
    apply (msum_group_exact class_key class_init class_step
             stats_Count (fun _ => 1) class_count_init class_count_step).
    - intros; lia.
    - by rewrite keyed_total_count. }
  split; [split|split; [split|split; [|split; [done|split]]]].
  - by apply wrap_of_nat.
  - rewrite wrap_of_nat by done. exact Hcount.
  - done.
  - rewrite <- keyed_total_size.
    apply (msum_group_wrap class_key class_init class_step
             stats_Size Size class_size_init class_size_step).
  - intros Hpos Hmax.
    assert (Hin : in_range (sum_of Size objs)).
    { unfold in_range, min_int64, max_int64 in *.
      assert (0 <= sum_of Size objs); [|lia].
      apply sum_of_nonneg. intros o Ho.
      by apply (proj1 (List.Forall_forall _ _) Hpos). }
    rewrite (wrap_id _ Hin). split; [done|].
    rewrite <- keyed_total_size.
    apply (msum_group_exact class_key class_init class_step
             stats_Size Size class_size_init class_size_step).
    + intros o Ho. by apply (proj1 (List.Forall_forall _ _) Hpos).
    + by rewrite keyed_total_size.
  - apply group_lookup_None. intros o Ho. destruct Hraws as [raws ->].
    apply in_map_iff in Ho as (raw & <- & _). unfold class_key, to_metadata.
    cbn [StorageClass]. intros [= H]. by apply effective_class_nonempty in H.
  - intros class st Hst. rewrite (classes_of_count objs class st Hst).
    apply wrap_of_nat. etrans; [|exact Hlen]. apply inj_le, length_filter.
Qed.

Lemma bucket_totals_match_objects_witness :
  let page :=
    [ mkS3Object "a" 10 zero_time "" "";
      mkS3Object "b" 20 zero_time "GLACIER" "";
      mkS3Object "c" 30 zero_time "STANDARD" "" ] in
  exists s objs,
    AnalyzeBucket 0 (Some zero_time) [ListPage page false] "b" "r" (s, objs)
    /\ TotalObjects s = Z.of_nat (length objs)
    /\ msum stats_Count (StorageClasses s) = TotalObjects s
    /\ StorageClasses s !! "" = None.
Proof.
  intros page.
  assert (HA : AnalyzeBucket 0 (Some zero_time) [ListPage page false] "b" "r"
                 (mkBucketSummary "b" "r" zero_time 3 60
                    (<["STANDARD" := mkStats 2 40]> {["GLACIER" := mkStats 1 20]})
                    (calculateCost_in
                       (map_to_list
                          (<["STANDARD" := mkStats 2 40]>
                             ({["GLACIER" := mkStats 1 20]}
                                : gmap string StorageClassStats)))),
                  map to_metadata page)).
  { exists zero_time. eexists _, _, _. split; [reflexivity|].
    split; [vm_compute; reflexivity|].
    split; [eexists; split; reflexivity|].
    vm_compute. reflexivity. }
  eexists _, _. split; [exact HA|].
  destruct (bucket_totals_match_objects _ _ _ _ _ _ _ HA
              ltac:(vm_compute; discriminate))
    as ((H1 & H2) & _ & _ & _ & H5 & _).
  split; [exact H1|split; [exact H2|exact H5]].
Defined.

End BucketFacts.

(** ** The cost estimate *)

Module CostFacts.
Import Types Bucket.

(** The price of a class: its entry in the table, the price of
    ["STANDARD"] for a class the table does not have. *)
Definition class_price (class : string) : float :=
  match pricing !! class with
  | Some price => price
  | None => 0.023%float
  end.

(** Bytes as gibibytes: divided by [2^30]. *)
Definition gibibytes (size : Z) : float :=
  (float64_of_int64 size / 1073741824)%float.

(** The sum the specification describes, in binary64 arithmetic and in the
    order the classes are visited. *)
Definition cost_of_classes (order : list (string * StorageClassStats)) : float :=
  fold_left
    (fun total entry =>
       (total + gibibytes (stats_Size entry.2) * class_price entry.1)%float)
    order 0%float.

Definition known_classes : list string :=
  [ "STANDARD"; "INTELLIGENT_TIERING"; "STANDARD_IA"; "ONEZONE_IA";
    "GLACIER"; "GLACIER_IR"; "DEEP_ARCHIVE" ].

Lemma add_class_cost_price (total : float) (entry : string * StorageClassStats) :
  add_class_cost total entry
  = (total + gibibytes (stats_Size entry.2) * class_price entry.1)%float.
Proof.
  destruct entry as [class stats]. unfold add_class_cost, class_price, gibibytes.
  cbn [fst snd]. destruct (pricing !! class); reflexivity.
Qed.

Lemma calculateCost_in_sum (order : list (string * StorageClassStats)) :
  calculateCost_in order = cost_of_classes order.
Proof.
  unfold calculateCost_in, cost_of_classes. generalize 0%float.
  induction order as [|e order IH]; intros total; [done|].
  cbn [fold_left]. by rewrite add_class_cost_price, IH.
Qed.

Lemma pricing_unknown (class : string) :
  ~ In class known_classes -> pricing !! class = None.
Proof.
  intros H. unfold pricing. apply not_elem_of_list_to_map.
  intros Hin. apply H. apply list_elem_of_In. exact Hin.
Qed.

(** The two classes of the example, with any counts. *)
Definition example_classes (n1 n2 : Z) : gmap string StorageClassStats :=
  <["STANDARD" := mkStats n1 (10 * 2 ^ 30)]>
    {["GLACIER" := mkStats n2 (5 * 2 ^ 30)]}.

Lemma example_classes_order (n1 n2 : Z) order :
  order ≡ₚ map_to_list (example_classes n1 n2) ->
  order = [("STANDARD", mkStats n1 (10 * 2 ^ 30));
           ("GLACIER", mkStats n2 (5 * 2 ^ 30))]
  \/ order = [("GLACIER", mkStats n2 (5 * 2 ^ 30));
              ("STANDARD", mkStats n1 (10 * 2 ^ 30))].
Proof.
  intros H. unfold example_classes in H.
  rewrite map_to_list_insert, map_to_list_singleton in H by done.
  symmetry in H. by apply Permutation_length_2_inv in H.
Qed.

(** C8: the estimated cost is the sum, over the classes of the summary in
    the order the map is visited, of the bytes of the class divided by
    [2^30] times the price of the class, in binary64 arithmetic; the table
    has the seven classes with their prices, and any other class has the
    price of ["STANDARD"]; 10 GiB in ["STANDARD"] and 5 GiB in ["GLACIER"]
    cost [0.25] within [1e-15], whatever the order. *)
Theorem estimated_cost_is_priced_sum :
  (forall classes cost,
     calculateCost classes cost
     <-> exists order, order ≡ₚ map_to_list classes
                       /\ cost = cost_of_classes order)
  /\ (forall limit date responses name region s objs,
        AnalyzeBucket limit date responses name region (s, objs) ->
        calculateCost (StorageClasses s) (EstimatedCost s))
  /\ map class_price known_classes
     = [0.023; 0.023; 0.0125; 0.01; 0.004; 0.004; 0.00099]%float
  /\ (forall class, ~ In class known_classes ->
        class_price class = class_price "STANDARD")
  /\ (forall n1 n2 cost,
        calculateCost (example_classes n1 n2) cost ->
        (abs (cost - 0.25) <=? 1e-15)%float = true).
Proof.
  split; [|split; [|split; [|split]]].
  - intros classes cost. unfold calculateCost. split.
    + intros (order & Hp & ->). exists order. by rewrite calculateCost_in_sum.
    + intros (order & Hp & ->). exists order. by rewrite calculateCost_in_sum.
  - intros limit date responses name region s objs HA.
    by apply BucketFacts.AnalyzeBucket_aggregated in HA as (_ & _ & _ & Hc & _).
  - vm_compute. reflexivity.
  - intros class H. unfold class_price at 1. by rewrite pricing_unknown.
  - intros n1 n2 cost (order & Hp & ->).
    apply example_classes_order in Hp as [-> | ->]; vm_compute; reflexivity.
Qed.

End CostFacts.

(** ** The groups of the partition detector *)

Module GroupFacts.
Import Types GoString Regexp GoRuntime Partition Int64 Int64Facts GroupBy.

(** The update of a partition by one more object of its group. *)
Definition part_step (p : Types.Partition) (obj : ObjectMetadata)
  : Types.Partition :=
  mkPartition (Prefix p) (Pattern p)
    (incr (ObjectCount p))
    (add (PartitionSize p) (Size obj))
    (if (length (Examples p) <? 3)%nat
     then (Examples p ++ [Key obj])%list else Examples p).

(** The partition stored for the first object of a group. *)
Definition part_init (prefix : ObjectMetadata -> string) (patternName : string)
    (obj : ObjectMetadata) : Types.Partition :=
  mkPartition (prefix obj) patternName 1 (Size obj) [Key obj].

(** The text a date pattern matches in the key of an object. *)
Definition date_key (re : regex) (obj : ObjectMetadata) : option string :=
  FindString re (Key obj).

(** The top-level prefix of the key of an object that has a ['/']. *)
Definition top_key (obj : ObjectMetadata) : option string :=
  let parts := Split (Key obj) "/"%char in
  if (1 <? length parts)%nat then Some (hd "" parts) else None.

Lemma fold_left_extensional {A B : Type} (f g : A -> B -> A) (l : list B) (a : A) :
  (forall a b, f a b = g a b) -> fold_left f l a = fold_left g l a.
Proof.
  intros H. revert a. induction l as [|b l IH]; intros a; simpl; [done|].
  by rewrite H, IH.
Qed.

Lemma group_matches_group (objs : list ObjectMetadata) (name : string)
    (re : regex) :
  group_matches objs name re
  = group (date_key re)
      (part_init (fun o => default "" (date_key re o)) name) part_step objs.
Proof.
  unfold group_matches, group. apply fold_left_extensional. intros m o.
  unfold upsert, date_key, add_to_group.
  destruct (FindString re (Key o)) as [prefix|] eqn:Hf; [|done].
  destruct (m !! prefix); [done|].
  unfold part_init. by rewrite Hf.
Qed.

Lemma group_top_level_group (objs : list ObjectMetadata) :
  group_top_level objs
  = group top_key
      (part_init (fun o => default "" (top_key o) +:+ "/") hierarchical_name)
      part_step objs.
Proof.
  unfold group_top_level, group. apply fold_left_extensional. intros m o.
  unfold upsert, top_key, add_to_group.
  destruct (1 <? length (Split (Key o) "/"%char))%nat eqn:Hp; [|done].
  destruct (m !! hd "" (Split (Key o) "/"%char)); [done|].
  unfold part_init. cbv beta. by rewrite Hp.
Qed.

(** The size a partition accumulates: the first size, then [int64] sums. *)
Definition size_total (members : list ObjectMetadata) : Z :=
  match members with
  | [] => 0
  | o :: rest => fold_left add (map Size rest) (Size o)
  end.

(** The partition of a group that is not empty. *)
Definition partition_of (prefix patternName : string)
    (members : list ObjectMetadata) : Types.Partition :=
  mkPartition prefix patternName (Z.of_nat (length members))
    (size_total members) (take 3 (map Key members)).

Lemma fold_part_step (rest : list ObjectMetadata) (p : Types.Partition) :
  (length (Examples p) <= 3)%nat ->
  fold_left part_step rest p
  = mkPartition (Prefix p) (Pattern p)
      (match rest with
       | [] => ObjectCount p
       | _ => wrap (ObjectCount p + Z.of_nat (length rest))
       end)
      (fold_left add (map Size rest) (PartitionSize p))
      (take 3 (Examples p ++ map Key rest)).
Proof.
  revert p. induction rest as [|o rest IH]; intros p Hex.
  - simpl. rewrite app_nil_r, take_ge by done. by destruct p.
  - cbn [fold_left]. rewrite IH.
    + unfold part_step.
      cbn [Prefix Pattern ObjectCount PartitionSize Examples map fold_left].
      f_equal.
      * destruct rest as [|o' rest]; [done|].
        unfold incr, add. rewrite wrap_add_l. f_equal. simpl length. lia.
      * destruct (Nat.ltb_spec (length (Examples p)) 3).
        -- by rewrite <- app_assoc.
        -- rewrite !take_app_le by lia. done.
    + unfold part_step. cbn [Examples].
      destruct (Nat.ltb_spec (length (Examples p)) 3); [|done].
      rewrite length_app. simpl. lia.
Qed.

(** What the map of a grouping loop holds under a key, when the slice has
    a length an [int64] holds. *)
Lemma group_partition (key : ObjectMetadata -> option string)
    (prefix : ObjectMetadata -> string) (name : string)
    (objs : list ObjectMetadata) (k : string) :
  Z.of_nat (length objs) <= max_int64 ->
  group key (part_init prefix name) part_step objs !! k
  = match members key k objs with
    | [] => None
    | o :: rest => Some (partition_of (prefix o) name (o :: rest))
    end.
Proof.
  intros Hlen. rewrite group_lookup.
  assert (Hm : (length (members key k objs) <= length objs)%nat)
    by apply length_filter.
  destruct (members key k objs) as [|o rest]; [done|].
  cbn [summary_of]. rewrite fold_part_step by (simpl; lia).
  unfold partition_of, part_init, size_total.
  cbn [Prefix Pattern ObjectCount PartitionSize Examples].
  f_equal. f_equal.
  destruct rest as [|o' rest]; [done|].
  rewrite <- (wrap_of_nat (length (o :: o' :: rest))).
  - f_equal. simpl length. lia.
  - etrans; [apply inj_le, Hm|done].
Qed.

End GroupFacts.

(** ** Orders and sorted results *)

Module OrderFacts.
Import Types GoString GoRuntime Partition.

Lemma ltb_false_leb (a b : string) :
  String.ltb a b = false <-> String.leb b a = true.
Proof.
  unfold String.ltb, String.leb. rewrite (String.compare_antisym b a).
  destruct (String.compare a b); simpl; split; congruence.
Qed.

Lemma leb_le (a b : string) : String.leb a b = true <-> String.le a b.
Proof. unfold String.le. by destruct (String.leb a b). Qed.

Lemma not_before_prefix (p q : Types.Partition) :
  not_before less_prefix p q <-> String.le (Prefix p) (Prefix q).
Proof.
  unfold not_before, less_prefix, GoString.lt.
  by rewrite ltb_false_leb, leb_le.
Qed.

#[global] Instance not_before_prefix_trans : Transitive (not_before less_prefix).
Proof.
  intros p q r. rewrite !not_before_prefix. apply (transitivity (R := String.le)).
Qed.

#[global] Instance not_before_prefix_total : Total (not_before less_prefix).
Proof.
  intros p q. rewrite !not_before_prefix. apply (total String.le).
Qed.

Lemma not_before_objects (p q : Types.Partition) :
  not_before more_objects p q <-> ObjectCount q <= ObjectCount p.
Proof.
  unfold not_before, more_objects. rewrite Z.gtb_ltb, Z.ltb_ge. done.
Qed.

#[global] Instance not_before_objects_trans : Transitive (not_before more_objects).
Proof. intros p q r. rewrite !not_before_objects. lia. Qed.

#[global] Instance not_before_objects_total : Total (not_before more_objects).
Proof. intros p q. rewrite !not_before_objects. lia. Qed.

(** A stable merge sort returns a value [sort.Slice] may leave. *)
Lemma merge_sort_sort_Slice {A : Type} (less : A -> A -> bool)
    `{!Transitive (not_before less), !Total (not_before less)} (s : list A) :
  sort_Slice less s (merge_sort (not_before less) s).
Proof.
  split; [apply merge_sort_Permutation|].
  by apply StronglySorted_merge_sort.
Qed.

(** The values of a map. *)
Lemma values_lookup {V : Type} (m : gmap string V) (v : V) :
  In v (map_to_list m).*2 <-> exists k, m !! k = Some v.
Proof.
  rewrite <- list_elem_of_In, list_elem_of_fmap. split.
  - intros ([k v'] & -> & H). exists k. by apply elem_of_map_to_list.
  - intros [k H]. exists (k, v). split; [done|]. by apply elem_of_map_to_list.
Qed.

Lemma length_values {V : Type} (m : gmap string V) :
  length (map_to_list m).*2 = size m.
Proof. by rewrite length_fmap, length_map_to_list. Qed.

End OrderFacts.

(** ** Matching and splitting keys *)

Module KeyFacts.
Import Types GoString Regexp Partition StringFacts GroupFacts.

Lemma FindString_here (re : regex) (s : string) :
  is_Some (match_here re s) -> is_Some (FindString re s).
Proof. intros [m Hm]. destruct s; simpl; rewrite Hm; eauto. Qed.

Lemma FindString_later (re : regex) (c : ascii) (s : string) :
  is_Some (FindString re s) -> is_Some (FindString re (String c s)).
Proof.
  intros H. cbn [FindString]. destruct (match_here re (String c s)); eauto.
Qed.

(** A match of [pre] followed by [re] has a match of [re] in it. *)
Lemma match_here_tail (pre re : regex) (s : string) :
  is_Some (match_here (pre ++ re)%list s) -> is_Some (FindString re s).
Proof.
  revert s. induction pre as [|a pre IH]; intros s.
  - apply FindString_here.
  - cbn [app match_here]. destruct s as [|c s]; [by intros [? ?]|].
    destruct (atom_matches a c); [|by intros [? ?]].
    intros H. apply FindString_later, IH.
    destruct (match_here (pre ++ re)%list s); [eauto|]. by destruct H.
Qed.

Lemma FindString_tail (pre re : regex) (s : string) :
  is_Some (FindString (pre ++ re)%list s) -> is_Some (FindString re s).
Proof.
  induction s as [|c s IH]; intros H; cbn [FindString] in H.
  - destruct (match_here (pre ++ re)%list "") eqn:Hm; [|by destruct H].
    apply (match_here_tail pre). rewrite Hm. eauto.
  - destruct (match_here (pre ++ re)%list (String c s)) eqn:Hm.
    + apply (match_here_tail pre). rewrite Hm. eauto.
    + apply FindString_later, IH, H.
Qed.

(** The number of objects whose key a pattern matches. *)
Definition matched (re : regex) (objs : list ObjectMetadata) : nat :=
  length (filter (fun o => is_Some (date_key re o)) objs).

Lemma matched_le (re : regex) (objs : list ObjectMetadata) :
  (matched re objs <= length objs)%nat.
Proof. apply length_filter. Qed.

Lemma matched_tail (pre re : regex) (objs : list ObjectMetadata) :
  (matched (pre ++ re)%list objs <= matched re objs)%nat.
Proof.
  unfold matched. induction objs as [|o objs IH]; [done|].
  rewrite !filter_cons.
  destruct (decide (is_Some (date_key (pre ++ re)%list o))) as [H|H].
  - rewrite decide_True by (by apply (FindString_tail pre)). simpl. lia.
  - destruct (decide (is_Some (date_key re o))); simpl; lia.
Qed.

Lemma of_bytes_app (a b : list ascii) :
  of_bytes (a ++ b) = of_bytes a +:+ of_bytes b.
Proof. induction a as [|c a IH]; simpl; [done|]. by rewrite IH. Qed.

Lemma split_bytes_nonempty (sep : ascii) (l : list ascii) :
  split_bytes sep l <> [].
Proof.
  induction l as [|c l IH]; simpl; [done|].
  destruct (Ascii.eqb c sep); [done|]. by destruct (split_bytes sep l).
Qed.

Lemma split_bytes_whole (sep : ascii) (l : list ascii) :
  ~ In sep l -> split_bytes sep l = [l].
Proof.
  induction l as [|c l IH]; simpl; [done|]. intros H.
  destruct (Ascii.eqb_spec c sep) as [->|_]; [by destruct H; left|].
  rewrite IH; [done|]. intros ?. apply H. by right.
Qed.

Lemma split_bytes_first (sep : ascii) (t rest : list ascii) :
  ~ In sep t ->
  split_bytes sep (t ++ sep :: rest) = t :: split_bytes sep rest.
Proof.
  induction t as [|c t IH]; simpl; intros H.
  - by rewrite Ascii.eqb_refl.
  - destruct (Ascii.eqb_spec c sep) as [->|_]; [by destruct H; left|].
    rewrite IH; [done|]. intros ?. apply H. by right.
Qed.

Lemma first_occurrence (c : ascii) (l : list ascii) :
  In c l -> exists t rest, l = (t ++ c :: rest)%list /\ ~ In c t.
Proof.
  induction l as [|d l IH]; [done|].
  destruct (decide (d = c)) as [->|Hne].
  - intros _. exists [], l. split; [reflexivity|intros []].
  - intros [?|H]; [done|]. destruct (IH H) as (t & rest & -> & Ht).
    exists (d :: t), rest. split; [done|]. intros [?|?]; done.
Qed.

(** The key of the group of an object in the hierarchical grouping: the
    text before the first ['/'] of a key that has one. *)
Lemma top_key_spec (o : ObjectMetadata) (t : string) :
  top_key o = Some t
  <-> exists rest, Key o = t +:+ "/" +:+ rest /\ ~ In "/"%char (bytes t).
Proof.
  unfold top_key, Split. split.
  - destruct (in_dec ascii_dec "/"%char (bytes (Key o))) as [Hin|Hnin].
    + destruct (first_occurrence _ _ Hin) as (t' & rest & Hk & Ht').
      rewrite Hk, split_bytes_first by done.
      pose proof (split_bytes_nonempty "/"%char rest).
      destruct (split_bytes "/"%char rest) as [|x xs] eqn:Hs; [done|].
      simpl. intros [= <-]. exists (of_bytes rest). split.
      * rewrite <- (of_bytes_bytes (Key o)), Hk, of_bytes_app. done.
      * by rewrite bytes_of_bytes.
    + rewrite split_bytes_whole by done. done.
  - intros (rest & Hk & Ht).
    assert (Hb : bytes (Key o) = (bytes t ++ "/"%char :: bytes rest)%list).
    { rewrite Hk, !bytes_app. done. }
    rewrite Hb, split_bytes_first by done.
    pose proof (split_bytes_nonempty "/"%char (bytes rest)).
    destruct (split_bytes "/"%char (bytes rest)); [done|].
    simpl. by rewrite of_bytes_bytes.
Qed.

End KeyFacts.

(** ** The date patterns *)

Module DetectFacts.
Import Types GoString Regexp GoRuntime Partition Int64 Int64Facts GroupBy.
Import GroupFacts OrderFacts KeyFacts.

(** The coverage of a pattern exceeds one half. *)
Definition covers (re : regex) (objs : list ObjectMetadata) : bool :=
  exceeds_half (coverage (Z.of_nat (matched re objs)) (Z.of_nat (length objs))).

Lemma exceeds_half_spec (m n : Z) :
  0 < n -> exceeds_half (coverage m n) = true <-> n < 2 * m.
Proof.
  intros Hn. unfold exceeds_half, coverage, Qle_bool. cbn [Qnum Qden].
  rewrite Z2Pos.id by done. rewrite negb_true_iff, Z.leb_gt. lia.
Qed.

Lemma exceeds_half_zero (n : Z) : exceeds_half (coverage 0 n) = false.
Proof. unfold exceeds_half, coverage, Qle_bool. cbn [Qnum Qden]. done. Qed.

Lemma covers_spec (re : regex) (objs : list ObjectMetadata) :
  covers re objs = true
  <-> Z.of_nat (length objs) < 2 * Z.of_nat (matched re objs).
Proof.
  unfold covers. destruct objs as [|o objs].
  - unfold matched. simpl. rewrite exceeds_half_zero. split; [done|lia].
  - apply exceeds_half_spec. simpl length. lia.
Qed.

Lemma keyed_total_matched (re : regex) (objs : list ObjectMetadata) :
  keyed_total (date_key re) (fun _ => 1) objs = Z.of_nat (matched re objs).
Proof.
  unfold keyed_total, matched. induction objs as [|o objs IH]; [done|].
  cbn [sum_of foldr]. fold (sum_of (fun a : ObjectMetadata =>
    match date_key re a with Some _ => 1 | None => 0 end) objs).
  rewrite IH, filter_cons.
  destruct (date_key re o) as [k|].
  - rewrite decide_True by eauto. simpl length. lia.
  - rewrite decide_False by (by intros [? ?]). lia.
Qed.

Lemma totalMatched_sum (l : list Types.Partition) :
  totalMatched l = wrap (sum_of ObjectCount l).
Proof.
  unfold totalMatched. change 0 with (wrap 0) at 1.
  rewrite <- (Z.add_0_l (sum_of ObjectCount l)). generalize 0.
  induction l as [|p l IH]; intros a.
  - simpl. by rewrite Z.add_0_r.
  - cbn [fold_left sum_of foldr]. unfold add at 2. rewrite wrap_add_l, IH.
    f_equal. fold (sum_of ObjectCount l). lia.
Qed.

Lemma part_count_init (prefix : ObjectMetadata -> string) (name : string)
    (o : ObjectMetadata) :
  ObjectCount (part_init prefix name o) = wrap ((fun _ => 1) o).
Proof. done. Qed.

Lemma part_count_step (p : Types.Partition) (o : ObjectMetadata) :
  ObjectCount (part_step p o) = wrap (ObjectCount p + (fun _ => 1) o).
Proof. done. Qed.

(** The counts of the groups of a pattern sum to the number of objects
    the pattern matches. *)
Lemma group_matches_total (objs : list ObjectMetadata) (name : string)
    (re : regex) :
  Z.of_nat (length objs) <= max_int64 ->
  msum ObjectCount (group_matches objs name re) = Z.of_nat (matched re objs).
Proof.
  intros Hlen. rewrite group_matches_group, <- keyed_total_matched.
  apply (msum_group_exact (date_key re) _ part_step ObjectCount (fun _ => 1)
           (part_count_init _ name) part_count_step).
  - intros; lia.
  - rewrite keyed_total_matched. pose proof (matched_le re objs). lia.
Qed.

Lemma totalMatched_groupByPattern (objs : list ObjectMetadata) (name : string)
    (re : regex) :
  Z.of_nat (length objs) <= max_int64 ->
  totalMatched (groupByPattern objs name re) = Z.of_nat (matched re objs).
Proof.
  intros Hlen. rewrite totalMatched_sum. unfold groupByPattern.
  rewrite (sum_of_perm _ _ _ (merge_sort_Permutation _ _)).
  fold (msum ObjectCount (group_matches objs name re)).
  rewrite group_matches_total by done.
  apply wrap_of_nat. pose proof (matched_le re objs). lia.
Qed.

(** The test of the loop over the patterns is the test of the coverage. *)
Lemma accepted_covers (objs : list ObjectMetadata) (name : string) (re : regex) :
  Z.of_nat (length objs) <= max_int64 ->
  (0 <? length (groupByPattern objs name re))%nat
  && exceeds_half (coverage (totalMatched (groupByPattern objs name re))
                            (Z.of_nat (length objs)))
  = covers re objs.
Proof.
  intros Hlen. rewrite totalMatched_groupByPattern by done. fold (covers re objs).
  destruct (Nat.ltb_spec 0 (length (groupByPattern objs name re))) as [|H0];
    [done|].
  pose proof (totalMatched_groupByPattern objs name re Hlen) as Ht.
  destruct (groupByPattern objs name re); [|simpl in H0; lia].
  unfold totalMatched in Ht. simpl in Ht.
  unfold covers. rewrite <- Ht, exceeds_half_zero. done.
Qed.

(** The test in binary64 arithmetic and the test of the exact quotient
    agree on every pair of counts up to 128 objects. *)
Lemma coverage_float64_agrees (m n : nat) :
  (1 <= n <= 128)%nat -> (m <= n)%nat ->
  exceeds_half_float64 (Z.of_nat m) (Z.of_nat n)
  = exceeds_half (coverage (Z.of_nat m) (Z.of_nat n)).
Proof.
  intros Hn Hm.
  assert (H : forallb (fun n => forallb (fun m =>
                Bool.eqb (exceeds_half_float64 (Z.of_nat m) (Z.of_nat n))
                         (exceeds_half (coverage (Z.of_nat m) (Z.of_nat n))))
                (seq 0 (S n))) (seq 1 128) = true)
    by (vm_compute; reflexivity).
  rewrite forallb_forall in H. specialize (H n).
  rewrite forallb_forall in H. apply Bool.eqb_prop, H.
  - apply in_seq. lia.
  - apply in_seq. lia.
Qed.

(** The loop over the patterns returns the groups of the first pattern
    whose coverage exceeds one half. *)
Lemma try_patterns_first (objs : list ObjectMetadata)
    (ps : list (string * regex)) :
  Z.of_nat (length objs) <= max_int64 ->
  try_patterns objs ps
  = match List.find (fun p => covers p.2 objs) ps with
    | Some (name, re) => groupByPattern objs name re
    | None => []
    end.
Proof.
  intros Hlen. induction ps as [|[name re] ps IH]; [done|].
  cbn [try_patterns List.find snd]. rewrite accepted_covers by done.
  destruct (covers re objs); done.
Qed.

(** The groups of a pattern: one partition for each matched text, of the
    objects whose leftmost match it is. *)
Lemma group_matches_lookup (objs : list ObjectMetadata) (name : string)
    (re : regex) (k : string) :
  Z.of_nat (length objs) <= max_int64 ->
  group_matches objs name re !! k
  = match members (date_key re) k objs with
    | [] => None
    | o :: rest => Some (partition_of k name (o :: rest))
    end.
Proof.
  intros Hlen. rewrite group_matches_group, group_partition by done.
  destruct (members (date_key re) k objs) as [|o rest] eqn:Hm; [done|].
  assert (Ho : o ∈ members (date_key re) k objs) by (rewrite Hm; left).
  apply list_elem_of_filter in Ho as [-> _]. done.
Qed.

(** The groups of the fallback: one partition for each top-level prefix. *)
Lemma group_top_level_lookup (objs : list ObjectMetadata) (k : string) :
  Z.of_nat (length objs) <= max_int64 ->
  group_top_level objs !! k
  = match members top_key k objs with
    | [] => None
    | o :: rest => Some (partition_of (k +:+ "/") hierarchical_name (o :: rest))
    end.
Proof.
  intros Hlen. rewrite group_top_level_group, group_partition by done.
  destruct (members top_key k objs) as [|o rest] eqn:Hm; [done|].
  assert (Ho : o ∈ members top_key k objs) by (rewrite Hm; left).
  apply list_elem_of_filter in Ho as [-> _]. done.
Qed.

Lemma group_matches_prefix (objs : list ObjectMetadata) (name : string)
    (re : regex) (k : string) (p : Types.Partition) :
  Z.of_nat (length objs) <= max_int64 ->
  group_matches objs name re !! k = Some p ->
  Prefix p = k /\ Pattern p = name.
Proof.
  intros Hlen. rewrite group_matches_lookup by done.
  destruct (members (date_key re) k objs); [done|]. by intros [= <-].
Qed.

Lemma group_top_level_pattern (objs : list ObjectMetadata) (k : string)
    (p : Types.Partition) :
  Z.of_nat (length objs) <= max_int64 ->
  group_top_level objs !! k = Some p ->
  Prefix p = k +:+ "/" /\ Pattern p = hierarchical_name.
Proof.
  intros Hlen. rewrite group_top_level_lookup by done.
  destruct (members top_key k objs); [done|]. by intros [= <-].
Qed.

Lemma prefix_keys (l : list (string * Types.Partition)) :
  (forall k p, In (k, p) l -> Prefix p = k) ->
  Prefix <$> l.*2 = l.*1.
Proof.
  induction l as [|[k p] l IH]; intros H; [done|].
  cbn [fmap list_fmap fst snd]. f_equal.
  - apply H. by left.
  - apply IH. intros k' p' Hin. apply H. by right.
Qed.

(** Two partitions of the map of a pattern with one prefix are one. *)
Lemma group_matches_prefix_inj (objs : list ObjectMetadata) (name : string)
    (re : regex) (p q : Types.Partition) :
  Z.of_nat (length objs) <= max_int64 ->
  In p (map_to_list (group_matches objs name re)).*2 ->
  In q (map_to_list (group_matches objs name re)).*2 ->
  Prefix p = Prefix q -> p = q.
Proof.
  intros Hlen [k Hk]%values_lookup [k' Hk']%values_lookup Heq.
  destruct (group_matches_prefix _ _ _ _ _ Hlen Hk) as [H1 _].
  destruct (group_matches_prefix _ _ _ _ _ Hlen Hk') as [H2 _].
  assert (k = k') as <- by congruence. congruence.
Qed.

Lemma In_groupByPattern (objs : list ObjectMetadata) (name : string)
    (re : regex) (p : Types.Partition) :
  In p (groupByPattern objs name re)
  <-> In p (map_to_list (group_matches objs name re)).*2.
Proof.
  unfold groupByPattern. rewrite <- !list_elem_of_In.
  by rewrite merge_sort_Permutation.
Qed.

(** The partitions [groupByPattern] returns are in strictly ascending
    order of their prefixes. *)
Lemma groupByPattern_ascending (objs : list ObjectMetadata) (name : string)
    (re : regex) :
  Z.of_nat (length objs) <= max_int64 ->
  StronglySorted (fun p q => GoString.lt (Prefix p) (Prefix q) = true)
    (groupByPattern objs name re).
Proof.
  intros Hlen.
  assert (Hs : StronglySorted (not_before less_prefix)
                 (groupByPattern objs name re))
    by (apply StronglySorted_merge_sort; apply _).
  assert (Hnd : NoDup (groupByPattern objs name re)).
  { unfold groupByPattern. rewrite merge_sort_Permutation.
    apply (NoDup_fmap_1 Prefix). rewrite prefix_keys.
    - apply NoDup_fst_map_to_list.
    - intros k p Hi. apply list_elem_of_In, elem_of_map_to_list in Hi.
      by destruct (group_matches_prefix _ _ _ _ _ Hlen Hi). }
  assert (Hin : forall p, In p (groupByPattern objs name re) ->
                  In p (map_to_list (group_matches objs name re)).*2)
    by (intros p; apply In_groupByPattern).
  induction Hs as [|p l Hs IH Hall]; [constructor|].
  apply NoDup_cons in Hnd as [Hp Hnd].
  constructor.
  - apply IH; [done|]. intros q Hq. apply Hin. by right.
  - apply List.Forall_forall. intros q Hq.
    apply (proj1 (List.Forall_forall _ _) Hall) in Hq as Hle.
    apply not_before_prefix, leb_le in Hle.
    unfold GoString.lt, String.ltb, String.leb in *.
    destruct (String.compare (Prefix p) (Prefix q)) eqn:Hc; [|done|done].
    apply String.compare_eq_iff in Hc.
    exfalso. apply Hp. apply list_elem_of_In.
    rewrite (group_matches_prefix_inj objs name re p q Hlen); auto.
    + apply Hin. by left.
    + apply Hin. by right.
Qed.

(** [groupByPattern] has one result. *)
Lemma groupByPattern_returns_unique (objs : list ObjectMetadata)
    (name : string) (re : regex) (res : list Types.Partition) :
  Z.of_nat (length objs) <= max_int64 ->
  groupByPattern_returns objs name re res <-> res = groupByPattern objs name re.
Proof.
  intros Hlen. split.
  - intros (order & Hv & Hp & Hs). unfold visits in Hv.
    assert (Hperm : res ≡ₚ groupByPattern objs name re).
    { unfold groupByPattern. by rewrite merge_sort_Permutation, Hp, Hv. }
    apply (StronglySorted_unique_strong (not_before less_prefix));
      [|done|apply StronglySorted_merge_sort; apply _|done].
    intros p q Hp' Hq' H1 H2.
    apply not_before_prefix in H1, H2.
    apply (group_matches_prefix_inj objs name re p q Hlen).
    + apply In_groupByPattern, list_elem_of_In. by rewrite <- Hperm.
    + by apply In_groupByPattern, list_elem_of_In.
    + by apply (anti_symm String.le).
  - intros ->. exists (map_to_list (group_matches objs name re)).*2.
    split; [by unfold visits|]. apply merge_sort_sort_Slice; apply _.
Qed.

(** The partitions [groupByPattern] returns are the groups of the
    pattern. *)
Lemma groupByPattern_groups (objs : list ObjectMetadata) (name : string)
    (re : regex) (p : Types.Partition) :
  Z.of_nat (length objs) <= max_int64 ->
  In p (groupByPattern objs name re)
  <-> exists prefix,
        members (date_key re) prefix objs <> []
        /\ p = partition_of prefix name (members (date_key re) prefix objs).
Proof.
  intros Hlen. rewrite In_groupByPattern, values_lookup. split.
  - intros [k Hk]. exists k. rewrite group_matches_lookup in Hk by done.
    destruct (members (date_key re) k objs); [done|]. by simplify_eq.
  - intros (k & Hne & ->). exists k. rewrite group_matches_lookup by done.
    by destruct (members (date_key re) k objs).
Qed.

Lemma covers_nonempty (objs : list ObjectMetadata) (name : string) (re : regex) :
  Z.of_nat (length objs) <= max_int64 ->
  covers re objs = true -> groupByPattern objs name re <> [].
Proof.
  intros Hlen Hc Hnil. rewrite <- (accepted_covers objs name re Hlen) in Hc.
  by rewrite Hnil in Hc.
Qed.

End DetectFacts.

(** ** The partition detector *)

Module PartitionFacts.
Import Types GoString Regexp GoRuntime Partition Int64 Int64Facts GroupBy.
Import GroupFacts OrderFacts KeyFacts DetectFacts.

Lemma find_first {A : Type} (f : A -> bool) (pre : list A) (x : A)
    (post : list A) :
  Forall (fun y => f y = false) pre -> f x = true ->
  List.find f (pre ++ x :: post) = Some x.
Proof.
  induction 1 as [|y pre Hy _ IH]; intros Hx; simpl.
  - by rewrite Hx.
  - rewrite Hy. by apply IH.
Qed.

Lemma find_none {A : Type} (f : A -> bool) (l : list A) :
  Forall (fun y => f y = false) l -> List.find f l = None.
Proof. induction 1 as [|y l Hy _ IH]; simpl; [done|]. by rewrite Hy. Qed.

Lemma StronglySorted_weaken {A : Type} (R R' : A -> A -> Prop) (l : list A) :
  (forall x y, R x y -> R' x y) -> StronglySorted R l -> StronglySorted R' l.
Proof.
  intros H. induction 1 as [|x l _ IH Hall]; constructor; [done|].
  eapply Forall_impl; [exact Hall|]. apply H.
Qed.

(** What [detectHierarchicalPartitions] returns, spelled out. *)
Lemma detectHierarchicalPartitions_spec (objs : list ObjectMetadata)
    (res : list Types.Partition) :
  detectHierarchicalPartitions objs res
  <-> if (1 <? size (group_top_level objs))%nat
      then res ≡ₚ (map_to_list (group_top_level objs)).*2
           /\ StronglySorted (fun p q => ObjectCount q <= ObjectCount p) res
      else res = [].
Proof.
  unfold detectHierarchicalPartitions. cbv zeta.
  destruct (Nat.leb_spec (size (group_top_level objs)) 1) as [Hs|Hs].
  - destruct (Nat.ltb_spec 1 (size (group_top_level objs))); [lia|done].
  - destruct (Nat.ltb_spec 1 (size (group_top_level objs))); [|lia].
    unfold visits, sort_Slice, ordered_by. split.
    + intros (order & Hv & Hp & Hsorted). split; [by rewrite Hp|].
      eapply StronglySorted_weaken; [|exact Hsorted].
      intros p q. apply not_before_objects.
    + intros [Hp Hsorted]. exists (map_to_list (group_top_level objs)).*2.
      split; [done|]. split; [done|].
      eapply StronglySorted_weaken; [|exact Hsorted].
      intros p q. apply not_before_objects.
Qed.

(** [detectHierarchicalPartitions] and [AnalyzePartitions] return: the
    runs are values of the relations. *)
Lemma detectHierarchicalPartitions_run_returns (objs : list ObjectMetadata) :
  detectHierarchicalPartitions objs (detectHierarchicalPartitions_run objs).
Proof.
  unfold detectHierarchicalPartitions, detectHierarchicalPartitions_run.
  cbv zeta. destruct (size (group_top_level objs) <=? 1)%nat; [done|].
  exists (map_to_list (group_top_level objs)).*2. split; [by unfold visits|].
  apply merge_sort_sort_Slice; apply _.
Qed.

Lemma AnalyzePartitions_run_returns (objs : list ObjectMetadata) :
  AnalyzePartitions objs (AnalyzePartitions_run objs).
Proof.
  unfold AnalyzePartitions, AnalyzePartitions_run. destruct objs as [|o objs]; [done|].
  cbv zeta. destruct (detectDatePartitions (o :: objs)); [|done].
  exists (detectHierarchicalPartitions_run (o :: objs)).
  split; [apply detectHierarchicalPartitions_run_returns|done].
Qed.

(** C1: the six patterns are tried in their order, and the detector
    returns the groups of the first pattern whose coverage, the number of
    objects it matches divided by the number of objects, exceeds one half:
    a pattern covers when twice the number of objects it matches is
    strictly more than the number of objects, so exactly half is rejected.
    The groups are the partitions of the texts matched, each with the
    objects whose leftmost match it is, in strictly ascending order of the
    prefixes; this order leaves one result. *)
Theorem first_covering_pattern_wins (objs : list ObjectMetadata) :
  Z.of_nat (length objs) <= max_int64 ->
  map fst patterns
  = [ "year=YYYY/month=MM/day=DD"; "year=YYYY/month=MM"; "YYYY/MM/DD";
      "YYYY/MM"; "YYYY-MM-DD"; "dt=YYYY-MM-DD" ]
  /\ (forall earlier name re later,
        patterns = (earlier ++ (name, re) :: later)%list ->
        Forall (fun p => covers p.2 objs = false) earlier ->
        covers re objs = true ->
        detectDatePartitions objs = groupByPattern objs name re
        /\ forall res,
             AnalyzePartitions objs res <-> res = groupByPattern objs name re)
  /\ (forall re,
        (covers re objs = true
         <-> (1 # 2 < Z.of_nat (matched re objs) # Z.to_pos (Z.of_nat (length objs)))%Q)
        /\ (covers re objs = true
            <-> Z.of_nat (length objs) < 2 * Z.of_nat (matched re objs))
        /\ (2 * Z.of_nat (matched re objs) = Z.of_nat (length objs) ->
            covers re objs = false))
  /\ (forall name re,
        (forall res, groupByPattern_returns objs name re res
                     <-> res = groupByPattern objs name re)
        /\ StronglySorted (fun p q => GoString.lt (Prefix p) (Prefix q) = true)
             (groupByPattern objs name re)
        /\ forall p,
             In p (groupByPattern objs name re)
             <-> exists prefix,
                   members (date_key re) prefix objs <> []
                   /\ p = partition_of prefix name
                            (members (date_key re) prefix objs)).
Proof.
  intros Hlen. split; [done|]. split; [|split].
  - intros earlier name re later Hps Hearlier Hre.
    assert (Hd : detectDatePartitions objs = groupByPattern objs name re).
    { unfold detectDatePartitions. rewrite try_patterns_first, Hps by done.
      by rewrite (find_first (fun p => covers p.2 objs) earlier (name, re)). }
    split; [done|]. intros res.
    pose proof (covers_nonempty objs name re Hlen Hre) as Hne.
    unfold AnalyzePartitions. destruct objs as [|o objs].
    { apply covers_spec in Hre. unfold matched in Hre. simpl in Hre. lia. }
    cbv zeta. rewrite Hd.
    destruct (groupByPattern (o :: objs) name re); done.
  - intros re. split; [|split].
    + unfold covers, exceeds_half, coverage.
      rewrite negb_true_iff, <- not_true_iff_false, Qle_bool_iff.
      split; [apply Qnot_le_lt|apply Qlt_not_le].
    + apply covers_spec.
    + intros H. apply not_true_iff_false. rewrite covers_spec. lia.
  - intros name re. split; [|split].
    + intros res. by apply groupByPattern_returns_unique.
    + by apply groupByPattern_ascending.
    + intros p. by apply groupByPattern_groups.
Qed.

Lemma first_covering_pattern_wins_witness :
  let obj := fun key => mkObject key 10 zero_time "STANDARD" "" in
  let objs :=
    [ obj "year=2023/month=01/day=15/a.json"; obj "notes.txt";
      obj "year=2023/month=01/day=15/b.json"; obj "readme";
      obj "year=2023/month=01/day=14/c.json" ] in
  let half := [ obj "2023/01/15/a"; obj "x"; obj "2023/01/16/b"; obj "y" ] in
  map Prefix (detectDatePartitions objs)
  = [ "year=2023/month=01/day=14"; "year=2023/month=01/day=15" ]
  /\ map Pattern (detectDatePartitions objs)
     = [ "year=YYYY/month=MM/day=DD"; "year=YYYY/month=MM/day=DD" ]
  /\ covers (digits 4 ++ lits "/" ++ digits 2 ++ lits "/" ++ digits 2)%list half
     = false.
Proof.
  intros obj objs half.
  assert (Hlen : Z.of_nat (length objs) <= max_int64) by (vm_compute; discriminate).
  assert (Hhalf : Z.of_nat (length half) <= max_int64) by (vm_compute; discriminate).
  destruct (first_covering_pattern_wins objs Hlen) as (_ & Hfirst & _).
  destruct (first_covering_pattern_wins half Hhalf) as (_ & _ & Hcov & _).
  destruct (Hfirst [] "year=YYYY/month=MM/day=DD"
              (lits "year=" ++ digits 4 ++ lits "/month=" ++ digits 2
                 ++ lits "/day=" ++ digits 2)%list
              (tail patterns) eq_refl (List.Forall_nil _) eq_refl) as [-> _].
  split; [reflexivity|]. split; [reflexivity|].
  apply (proj2 (proj2
    (Hcov (digits 4 ++ lits "/" ++ digits 2 ++ lits "/" ++ digits 2)%list))).
  reflexivity.
Defined.

(** C2: when no date pattern has a coverage above one half, the detector
    groups the objects whose key has a ['/'] by the text before the first
    ['/'], the partition of a group carrying that text with a ['/']
    appended as its prefix; with more than one group it returns the
    partitions of the groups in descending order of their object counts
    (any such order of the groups, and no other list), and the empty list
    with one group or none. *)
Theorem hierarchical_fallback (objs : list ObjectMetadata) :
  Z.of_nat (length objs) <= max_int64 ->
  Forall (fun p => covers p.2 objs = false) patterns ->
  (forall o t,
     top_key o = Some t
     <-> exists rest, Key o = t +:+ "/" +:+ rest /\ ~ In "/"%char (bytes t))
  /\ (forall t,
        group_top_level objs !! t
        = match members top_key t objs with
          | [] => None
          | o :: rest =>
              Some (partition_of (t +:+ "/") hierarchical_name (o :: rest))
          end)
  /\ (forall res,
        AnalyzePartitions objs res
        <-> if (1 <? size (group_top_level objs))%nat
            then res ≡ₚ (map_to_list (group_top_level objs)).*2
                 /\ StronglySorted
                      (fun p q => ObjectCount q <= ObjectCount p) res
            else res = []).
Proof.
  intros Hlen Hnone. split; [apply top_key_spec|].
  split; [intros t; by apply group_top_level_lookup|].
  intros res. rewrite <- detectHierarchicalPartitions_spec.
  assert (Hd : detectDatePartitions objs = []).
  { unfold detectDatePartitions. rewrite try_patterns_first by done.
    by rewrite find_none. }
  unfold AnalyzePartitions. destruct objs as [|o objs].
  - unfold detectHierarchicalPartitions. simpl. done.
  - cbv zeta. rewrite Hd. simpl. split.
    + by intros (hp & Hhp & ->).
    + intros H. by exists res.
Qed.

Lemma hierarchical_fallback_witness :
  let obj := fun key => mkObject key 10 zero_time "STANDARD" "" in
  let objs :=
    [ obj "logs/a"; obj "tmp/x"; obj "logs/b"; obj "misc/m"; obj "tmp/y";
      obj "logs/c"; obj "flat" ] in
  group_top_level objs !! "logs"
  = Some (mkPartition "logs/" "hierarchical (top-level prefix)" 3 30
            ["logs/a"; "logs/b"; "logs/c"])
  /\ map Prefix (AnalyzePartitions_run objs) = ["logs/"; "tmp/"; "misc/"]
  /\ StronglySorted (fun p q => ObjectCount q <= ObjectCount p)
       (AnalyzePartitions_run objs).
Proof.
  intros obj objs.
  assert (Hlen : Z.of_nat (length objs) <= max_int64) by (vm_compute; discriminate).
  assert (Hnone : Forall (fun p => covers p.2 objs = false) patterns)
    by (repeat constructor).
  destruct (hierarchical_fallback objs Hlen Hnone) as (_ & Hgroup & Hres).
  split; [rewrite Hgroup; reflexivity|]. split; [reflexivity|].
  pose proof (proj1 (Hres _) (AnalyzePartitions_run_returns objs)) as Hrun.
  change (1 <? size (group_top_level objs))%nat with true in Hrun.
  exact (proj2 Hrun).
Defined.

(** The expressions of the last two patterns. *)
Definition re_date : regex :=
  (digits 4 ++ lits "-" ++ digits 2 ++ lits "-" ++ digits 2)%list.
Definition re_dt_date : regex := (lits "dt=" ++ re_date)%list.

Lemma covers_tail (pre re : regex) (objs : list ObjectMetadata) :
  covers (pre ++ re)%list objs = true -> covers re objs = true.
Proof.
  rewrite !covers_spec. pose proof (matched_tail pre re objs). lia.
Qed.

Lemma detectDatePartitions_patterns (objs : list ObjectMetadata) :
  Z.of_nat (length objs) <= max_int64 ->
  Forall (fun p => In (Pattern p)
                     [ "year=YYYY/month=MM/day=DD"; "year=YYYY/month=MM";
                       "YYYY/MM/DD"; "YYYY/MM"; "YYYY-MM-DD" ])
    (detectDatePartitions objs).
Proof.
  intros Hlen.
  assert (Hname : forall name re,
            Forall (fun p => Pattern p = name) (groupByPattern objs name re)).
  { intros name re. apply List.Forall_forall. intros p Hp.
    apply In_groupByPattern, values_lookup in Hp as [k Hk].
    by destruct (group_matches_prefix _ _ _ _ _ Hlen Hk). }
  unfold detectDatePartitions. rewrite try_patterns_first by done.
  unfold patterns. cbn [List.find snd].
  repeat match goal with
         | |- context [if covers ?re objs then _ else _] =>
             destruct (covers re objs) eqn:?
         end;
    try (eapply Forall_impl; [apply Hname|];
         intros p ->; cbn [In]; tauto);
    try constructor.
  exfalso.
  assert (covers re_date objs = true); [|unfold re_date in *; congruence].
  apply (covers_tail (lits "dt=")). assumption.
Qed.

Lemma detectHierarchicalPartitions_pattern (objs : list ObjectMetadata)
    (res : list Types.Partition) :
  Z.of_nat (length objs) <= max_int64 ->
  detectHierarchicalPartitions objs res ->
  Forall (fun p => Pattern p = hierarchical_name) res.
Proof.
  intros Hlen. rewrite detectHierarchicalPartitions_spec.
  destruct (1 <? size (group_top_level objs))%nat; [|by intros ->].
  intros [Hp _]. apply List.Forall_forall. intros p Hin.
  apply list_elem_of_In in Hin. rewrite Hp in Hin.
  apply list_elem_of_In, values_lookup in Hin as [k Hk].
  by destruct (group_top_level_pattern _ _ _ Hlen Hk).
Qed.

(** C10: no partition the detector returns has the pattern name
    ["dt=YYYY-MM-DD"]: a key with a match of [dt=\d{4}-\d{2}-\d{2}] has a
    match of [\d{4}-\d{2}-\d{2}], so the pattern ["YYYY-MM-DD"], tried
    before, matches at least as many objects and covers whenever the
    [dt=] pattern does. *)
Theorem dt_pattern_is_never_returned (objs : list ObjectMetadata) :
  Z.of_nat (length objs) <= max_int64 ->
  (exists earlier,
     patterns = (earlier ++ [("YYYY-MM-DD", re_date);
                             ("dt=YYYY-MM-DD", re_dt_date)])%list)
  /\ (forall key, is_Some (FindString re_dt_date key) ->
                  is_Some (FindString re_date key))
  /\ (matched re_dt_date objs <= matched re_date objs)%nat
  /\ (covers re_dt_date objs = true -> covers re_date objs = true)
  /\ (forall res, AnalyzePartitions objs res ->
        Forall (fun p => Pattern p <> "dt=YYYY-MM-DD") res).
Proof.
  intros Hlen. split; [|split; [|split; [|split]]].
  - by exists (take 4 patterns).
  - intros key. apply FindString_tail.
  - apply matched_tail.
  - apply covers_tail.
  - intros res. unfold AnalyzePartitions. destruct objs as [|o objs].
    { intros ->. constructor. }
    cbv zeta. pose proof (detectDatePartitions_patterns (o :: objs) Hlen) as Hd.
    destruct (detectDatePartitions (o :: objs)) as [|p ps].
    + intros (hp & Hhp & ->). simpl.
      eapply Forall_impl;
        [apply (detectHierarchicalPartitions_pattern _ _ Hlen Hhp)|].
      intros q ->. done.
    + intros ->. simpl. eapply Forall_impl; [exact Hd|].
      intros q Hq. cbn [In] in Hq.
      intros Heq. rewrite Heq in Hq.
      repeat (destruct Hq as [Hq|Hq]; [discriminate Hq|]). exact Hq.
Qed.

Lemma dt_pattern_is_never_returned_witness :
  let obj := fun key => mkObject key 10 zero_time "STANDARD" "" in
  let objs := [ obj "dt=2023-01-15/a"; obj "dt=2023-01-16/b"; obj "c" ] in
  map Pattern (AnalyzePartitions_run objs) = ["YYYY-MM-DD"; "YYYY-MM-DD"]
  /\ Forall (fun p => Pattern p <> "dt=YYYY-MM-DD") (AnalyzePartitions_run objs).
Proof.
  intros obj objs.
  assert (Hlen : Z.of_nat (length objs) <= max_int64) by (vm_compute; discriminate).
  destruct (dt_pattern_is_never_returned objs Hlen) as (_ & _ & _ & _ & H).
  split; [reflexivity|].
  exact (H _ (AnalyzePartitions_run_returns objs)).
Defined.

End PartitionFacts.

(** ** The empty collection *)

Module EmptyFacts.
Import Types GoString GoRuntime Bucket Metadata Partition Int64.
Import BucketFacts PartitionFacts.

Lemma calculateCost_empty (cost : float) :
  calculateCost ∅ cost -> cost = 0%float.
Proof.
  intros (order & Hp & ->). rewrite map_to_list_empty in Hp.
  apply Permutation_nil_r in Hp as ->. done.
Qed.

Lemma listObjects_empty_page (limit : Z) (s0 : BucketSummary) :
  listObjects limit [ListPage [] false] s0 = Some (s0, []).
Proof.
  unfold listObjects, listObjects_loop. cbn [processedCount].
  destruct (Z.gtb_spec limit 0), (Z.geb_spec 0 limit); simpl; try done; lia.
Qed.

(** C7: on the empty collection nothing fails and every value is zero:
    a summary [AnalyzeBucket] returns with no object has no objects, no
    bytes, no class and no cost, and it returns one when the listing is an
    empty page; [AnalyzeMetadata] gives an empty file-type map, five
    counts of zero and the zero date range; [AnalyzePartitions] returns the
    empty list and nothing else. *)
Theorem empty_collection_gives_zero_values (lower : string -> string) :
  (forall limit date responses name region s,
     AnalyzeBucket limit date responses name region (s, []) ->
     TotalObjects s = 0 /\ TotalSize s = 0 /\ StorageClasses s = ∅
     /\ EstimatedCost s = 0%float)
  /\ (forall limit date name region,
        AnalyzeBucket limit (Some date) [ListPage [] false] name region
          (mkBucketSummary name region date 0 0 ∅ 0%float, []))
  /\ FileTypeStats (AnalyzeMetadata lower []) = ∅
  /\ map bucket_Count (SizeDistribution (AnalyzeMetadata lower []))
     = [0; 0; 0; 0; 0]
  /\ Dates (AnalyzeMetadata lower []) = mkDateRange zero_time zero_time
  /\ (forall res, AnalyzePartitions [] res <-> res = [])
  /\ AnalyzePartitions_run [] = [].
Proof.
  split; [|split; [|by repeat split]].
  - intros limit date responses name region s HA.
    apply AnalyzeBucket_aggregated in HA as (HO & HS & HC & Hcost & _).
    rewrite HC in Hcost. apply calculateCost_empty in Hcost.
    rewrite HO, HS, HC, Hcost. done.
  - intros limit date name region. exists date.
    exists (mkBucketSummary name region date 0 0 ∅ 0%float), [], 0%float.
    split; [done|]. split; [apply listObjects_empty_page|].
    split; [|done]. exists []. split; [|done].
    cbn [StorageClasses]. by rewrite map_to_list_empty.
Qed.

End EmptyFacts.

(** * Further properties *)

(** ** The file-type counts, the histogram and the date range *)

Module MetadataFacts.
Import Types GoString Metadata Int64 Int64Facts GroupBy.
Import HistogramFacts DateFacts.

Section WithUnicode.

Variable lower : string -> string.

(** The extension of the key of an object, as the key of a group. *)
Definition ext_key (o : ObjectMetadata) : option string :=
  Some (getFileExtension lower (Key o)).

(** The number of objects with a given file type. *)
Definition with_extension (ext : string) (objs : list ObjectMetadata) : nat :=
  length (filter (fun o => getFileExtension lower (Key o) = ext) objs).

Lemma FileTypeStats_fold (objs : list ObjectMetadata) (s : MetadataSummary) :
  FileTypeStats (fold_left (analyze_object lower) objs s)
  = fold_left (upsert ext_key (fun _ => incr 0) (fun v _ => incr v)) objs
      (FileTypeStats s).
Proof.
  revert s. induction objs as [|o objs IH]; intros s; [done|].
  cbn [fold_left]. rewrite IH. f_equal.
  unfold analyze_object, count_extension, upsert, ext_key. cbn [FileTypeStats].
  by destruct (FileTypeStats s !! getFileExtension lower (Key o)).
Qed.

Lemma FileTypeStats_group (objs : list ObjectMetadata) :
  FileTypeStats (AnalyzeMetadata lower objs)
  = group ext_key (fun _ => incr 0) (fun v _ => incr v) objs.
Proof. unfold AnalyzeMetadata. cbn [FileTypeStats]. by rewrite FileTypeStats_fold. Qed.

Lemma fold_incr (rest : list ObjectMetadata) (a : Z) :
  fold_left (fun v (_ : ObjectMetadata) => incr v) rest (wrap a)
  = wrap (a + Z.of_nat (length rest)).
Proof.
  revert a. induction rest as [|o rest IH]; intros a.
  - simpl. by rewrite Z.add_0_r.
  - cbn [fold_left]. unfold incr at 2, add. rewrite wrap_add_l, IH.
    f_equal. simpl length. lia.
Qed.

Lemma FileTypeStats_total (objs : list ObjectMetadata) :
  Z.of_nat (length objs) <= max_int64 ->
  msum (fun count => count) (FileTypeStats (AnalyzeMetadata lower objs))
  = Z.of_nat (length objs).
Proof.
  intros Hlen. rewrite FileTypeStats_group.
  assert (Ht : keyed_total ext_key (fun _ => 1) objs = Z.of_nat (length objs)).
  { clear Hlen. unfold keyed_total.
    induction objs as [|o objs IH]; simpl in *; [done|lia]. }
  rewrite <- Ht.
  apply (msum_group_exact ext_key (fun _ => incr 0) (fun v _ => incr v)
           (fun count => count) (fun _ => 1)).
  - done.
  - done.
  - intros; lia.
  - by rewrite Ht.
Qed.

(** X1: the file-type map holds, for each file type that occurs, the number
    of objects that have it, and nothing for the others; its counts sum to
    the number of objects. *)
Theorem file_type_counts (objs : list ObjectMetadata) :
  Z.of_nat (length objs) <= max_int64 ->
  (forall ext,
     FileTypeStats (AnalyzeMetadata lower objs) !! ext
     = match with_extension ext objs with
       | O => None
       | S n => Some (Z.of_nat (S n))
       end)
  /\ msum (fun count => count) (FileTypeStats (AnalyzeMetadata lower objs))
     = Z.of_nat (length objs).
Proof.
  intros Hlen. split; [|by apply FileTypeStats_total].
  rewrite FileTypeStats_group.
  intros ext. rewrite group_lookup. unfold with_extension, members, ext_key.
  rewrite (list_filter_iff
             (fun o => Some (getFileExtension lower (Key o)) = Some ext)
             (fun o => getFileExtension lower (Key o) = ext))
    by (intros o; split; congruence).
  pose proof (length_filter (fun o => getFileExtension lower (Key o) = ext) objs)
    as Hle.
  destruct (filter _ objs) as [|o rest]; [done|].
  cbn [summary_of length]. f_equal.
  change (incr 0) with (wrap 1). rewrite fold_incr.
  rewrite <- (wrap_of_nat (S (length rest))).
  - f_equal. lia.
  - simpl length in Hle. lia.
Qed.

End WithUnicode.

Lemma file_type_counts_witness :
  let obj := fun key => mkObject key 10 zero_time "STANDARD" "" in
  let objs := [ obj "a/B.CSV"; obj "folder/"; obj "c.csv"; obj "README" ] in
  FileTypeStats (AnalyzeMetadata (fun s => s) objs) !! "csv" = Some 2
  /\ FileTypeStats (AnalyzeMetadata (fun s => s) objs) !! "txt" = None
  /\ msum (fun count => count) (FileTypeStats (AnalyzeMetadata (fun s => s) objs))
     = 4.
Proof.
  intros obj objs.
  assert (Hlen : Z.of_nat (length objs) <= max_int64) by (vm_compute; discriminate).
  destruct (file_type_counts (fun s => s) objs Hlen) as [Hlook Hsum].
  split; [by rewrite Hlook|]. split; [by rewrite Hlook|exact Hsum].
Defined.

Lemma one_range_or_none (size : Z) :
  hit 0 size + hit 1 size + hit 2 size + hit 3 size + hit 4 size
  = if 0 <=? size then 1 else 0.
Proof.
  destruct (Z.leb_spec 0 size) as [H|H]; [by apply one_range|].
  unfold hit, in_range_of.
  destruct (Z.leb_spec 0 size), (Z.leb_spec 1024 size),
    (Z.leb_spec 1048576 size), (Z.leb_spec 104857600 size),
    (Z.leb_spec 1073741824 size); simpl; lia.
Qed.

Lemma histogram_total (objs : list ObjectMetadata) :
  Z.of_nat (length objs) <= max_int64 ->
  total_count (generateSizeDistribution objs)
  = Z.of_nat (length (filter (fun o => 0 <= Size o) objs)).
Proof.
  intros Hlen. rewrite generateSizeDistribution_counts by done.
  unfold total_count, histogram. cbn [foldr bucket_Count].
  clear Hlen. induction objs as [|o objs IH]; [done|].
  rewrite !objects_in_range_cons, filter_cons.
  pose proof (one_range_or_none (Size o)) as H1.
  destruct (Z.leb_spec 0 (Size o)).
  - rewrite decide_True by done. simpl length. lia.
  - rewrite decide_False by lia. lia.
Qed.

(** X2: the histogram keeps its five labels and bounds, and an object of
    negative size is counted in no bucket: the counts sum to the number of
    objects whose size is not negative. *)
Theorem histogram_skips_negative_sizes (objs : list ObjectMetadata) :
  Z.of_nat (length objs) <= max_int64 ->
  map (fun b => (Label b, Min b, Max b)) (generateSizeDistribution objs)
  = [ ("0-1KB", 0, 1024); ("1KB-1MB", 1024, 1048576);
      ("1MB-100MB", 1048576, 104857600);
      ("100MB-1GB", 104857600, 1073741824); ("1GB+", 1073741824, -1) ]
  /\ total_count (generateSizeDistribution objs)
     = Z.of_nat (length (filter (fun o => 0 <= Size o) objs)).
Proof.
  intros Hlen. split; [|by apply histogram_total].
  by rewrite generateSizeDistribution_counts.
Qed.

Lemma histogram_skips_negative_sizes_witness :
  let objs :=
    [ mkObject "a" (-5) zero_time "STANDARD" "";
      mkObject "b" 2000 zero_time "STANDARD" "" ] in
  total_count (generateSizeDistribution objs) = 1.
Proof.
  intros objs.
  exact (proj2 (histogram_skips_negative_sizes objs
                  ltac:(vm_compute; discriminate))).
Defined.

(** X3: the date range is ordered: [Latest] is never before [Earliest]. *)
Theorem earliest_not_after_latest (lower : string -> string)
    (objs : list ObjectMetadata) :
  Before (Latest (Dates (AnalyzeMetadata lower objs)))
         (Earliest (Dates (AnalyzeMetadata lower objs))) = false.
Proof.
  destruct objs as [|o objs]; [done|].
  unfold AnalyzeMetadata. cbn [Dates]. rewrite Dates_fold. cbn [Dates].
  set (r0 := mkDateRange (LastModified o) (LastModified o)).
  set (times := map LastModified (o :: objs)).
  destruct (track_earliest times r0) as [_ Hlow].
  destruct (track_latest times r0) as [Hin _].
  apply Hlow. destruct Hin as [Hin|Hin]; [|by right].
  right. left. exact Hin.
Qed.

End MetadataFacts.

(** ** File types of ASCII keys *)

Module ExtensionCaseFacts.
Import Types GoString Filepath Metadata StringFacts ExtensionFacts.

Lemma lower_byte_separator (c : ascii) :
  IsPathSeparator (lower_byte c) = IsPathSeparator c.
Proof. destruct c as [[] [] [] [] [] [] [] []]; reflexivity. Qed.

Lemma lower_byte_dot (c : ascii) :
  Ascii.eqb (lower_byte c) "."%char = Ascii.eqb c "."%char.
Proof. destruct c as [[] [] [] [] [] [] [] []]; reflexivity. Qed.

Lemma lower_byte_idem (c : ascii) : lower_byte (lower_byte c) = lower_byte c.
Proof. destruct c as [[] [] [] [] [] [] [] []]; reflexivity. Qed.

Lemma lower_byte_not_upper (c : ascii) : is_upper (lower_byte c) = false.
Proof. destruct c as [[] [] [] [] [] [] [] []]; reflexivity. Qed.

Lemma lower_byte_ascii (c : ascii) : is_ascii (lower_byte c) = is_ascii c.
Proof. destruct c as [[] [] [] [] [] [] [] []]; reflexivity. Qed.

Lemma strip_separators_lower (l : list ascii) :
  strip_separators (map lower_byte l) = map lower_byte (strip_separators l).
Proof.
  induction l as [|c l IH]; [done|]. cbn [map strip_separators].
  rewrite lower_byte_separator. by destruct (IsPathSeparator c).
Qed.

Lemma last_element_lower (l acc : list ascii) :
  last_element (map lower_byte l) (map lower_byte acc)
  = map lower_byte (last_element l acc).
Proof.
  revert acc. induction l as [|c l IH]; intros acc; [done|].
  cbn [map last_element]. rewrite lower_byte_separator.
  destruct (IsPathSeparator c); [done|]. apply (IH (c :: acc)).
Qed.

Lemma ext_scan_lower (l acc : list ascii) :
  ext_scan (map lower_byte l) (map lower_byte acc)
  = map lower_byte (ext_scan l acc).
Proof.
  revert acc. induction l as [|c l IH]; intros acc; [done|].
  cbn [map ext_scan]. rewrite lower_byte_separator, lower_byte_dot.
  destruct (IsPathSeparator c); [done|].
  destruct (Ascii.eqb c "."%char); [done|]. apply (IH (c :: acc)).
Qed.

(** Lowering the bytes of a path lowers its base and its extension. *)
Lemma Base_lower (l : list ascii) :
  Base (of_bytes (map lower_byte l))
  = of_bytes (map lower_byte (bytes (Base (of_bytes l)))).
Proof.
  destruct l as [|c l]; [done|].
  assert (H : last_element (strip_separators (rev (map lower_byte (c :: l)))) []
              = map lower_byte
                  (last_element (strip_separators (rev (c :: l))) [])).
  { rewrite <- map_rev, strip_separators_lower.
    by rewrite <- last_element_lower. }
  unfold Base. rewrite !of_bytes_nonempty by done. rewrite !bytes_of_bytes, H.
  destruct (last_element (strip_separators (rev (c :: l))) []) as [|d e];
    [reflexivity|].
  cbn [map]. rewrite bytes_of_bytes. reflexivity.
Qed.

Lemma Ext_lower (l : list ascii) :
  Ext (of_bytes (map lower_byte l))
  = of_bytes (map lower_byte (bytes (Ext (of_bytes l)))).
Proof.
  unfold Ext. rewrite !bytes_of_bytes, <- map_rev.
  change (@nil ascii) with (map lower_byte []) at 1.
  by rewrite ext_scan_lower.
Qed.

Lemma HasSuffix_lower (l : list ascii) :
  HasSuffix (of_bytes (map lower_byte l)) "/" = HasSuffix (of_bytes l) "/".
Proof.
  apply Bool.eq_iff_eq_true. rewrite !HasSuffix_slash, !bytes_of_bytes.
  destruct l as [|c l _] using rev_ind.
  - split; intros [l' Hl']; by destruct l'.
  - rewrite map_app. cbn [map]. split.
    + intros [l' Hl']. apply app_inj_tail in Hl' as [_ Hc].
      exists l. f_equal. f_equal.
      pose proof (lower_byte_separator c) as Hs. rewrite Hc in Hs.
      unfold IsPathSeparator, Separator in Hs.
      symmetry in Hs. by apply Ascii.eqb_eq in Hs.
    + intros [l' Hl']. apply app_inj_tail in Hl' as [_ ->].
      by exists (map lower_byte l).
Qed.

(** The extension of a path is empty or a dot and a suffix without dot
    and separator. *)
Lemma ext_scan_shape (l acc : list ascii) :
  ext_scan l acc = []
  \/ exists l1 l2, l = (l1 ++ "."%char :: l2)%list /\ Forall plain l1
                   /\ ext_scan l acc = "."%char :: (rev l1 ++ acc).
Proof.
  revert acc. induction l as [|c l IH]; intros acc; [by left|].
  cbn [ext_scan]. destruct (IsPathSeparator c) eqn:Hs; [by left|].
  destruct (Ascii.eqb_spec c "."%char) as [->|Hd].
  - right. exists [], l. done.
  - destruct (IH (c :: acc)) as [H|(l1 & l2 & -> & Hl1 & H)]; [by left|].
    right. exists (c :: l1), l2. split; [done|]. split.
    + constructor; [done|done].
    + rewrite H. simpl. by rewrite <- app_assoc.
Qed.

Lemma Ext_shape (s : string) :
  Ext s = ""
  \/ exists suf, Ext s = String "."%char (of_bytes suf) /\ Forall plain suf
                 /\ forall c, In c suf -> In c (bytes s).
Proof.
  unfold Ext. destruct (ext_scan_shape (rev (bytes s)) []) as [->|H]; [by left|].
  destruct H as (l1 & l2 & Hrev & Hl1 & ->). right. exists (rev l1).
  rewrite app_nil_r. split; [done|]. split; [by apply Forall_rev|].
  intros c Hc. apply in_rev. rewrite Hrev. apply in_or_app. left.
  by apply in_rev.
Qed.

Lemma last_element_subset (P : ascii -> Prop) (l acc : list ascii) :
  Forall P l -> Forall P acc -> Forall P (last_element l acc).
Proof.
  revert acc. induction l as [|c l IH]; intros acc Hl Hacc; [done|].
  apply Forall_cons in Hl as [Hc Hl]. cbn [last_element].
  destruct (IsPathSeparator c); [done|]. apply IH; [done|by constructor].
Qed.

Lemma strip_separators_subset (P : ascii -> Prop) (l : list ascii) :
  Forall P l -> Forall P (strip_separators l).
Proof.
  induction 1 as [|c l Hc Hl IH]; [done|]. cbn [strip_separators].
  destruct (IsPathSeparator c); [done|by constructor].
Qed.

Lemma Base_ascii (s : string) :
  Forall (fun c => is_ascii c = true) (bytes s) ->
  Forall (fun c => is_ascii c = true) (bytes (Base s)).
Proof.
  intros Hs. unfold Base. destruct (String.eqb s ""); [by repeat constructor|].
  assert (H : Forall (fun c => is_ascii c = true)
                (last_element (strip_separators (rev (bytes s))) [])).
  { apply last_element_subset; [|done].
    by apply strip_separators_subset, Forall_rev. }
  destruct (last_element (strip_separators (rev (bytes s))) []);
    [by repeat constructor|by rewrite bytes_of_bytes].
Qed.

Section WithUnicode.

Variable lower : string -> string.

Lemma ToLower_lowered (l : list ascii) :
  Forall (fun c => is_ascii c = true) l ->
  ToLower lower (of_bytes (map lower_byte l)) = ToLower lower (of_bytes l).
Proof.
  intros Hl.
  assert (H1 : forallb is_ascii (bytes (of_bytes l)) = true).
  { rewrite bytes_of_bytes. apply forallb_forall. intros c Hc.
    by apply (proj1 (List.Forall_forall _ _) Hl). }
  assert (H2 : forallb is_ascii (bytes (of_bytes (map lower_byte l))) = true).
  { rewrite bytes_of_bytes. apply forallb_forall. intros c Hc.
    apply in_map_iff in Hc as (d & <- & Hd).
    rewrite lower_byte_ascii. by apply (proj1 (List.Forall_forall _ _) Hl). }
  rewrite (ToLower_ascii _ _ H1), (ToLower_ascii _ _ H2), !bytes_of_bytes.
  by rewrite map_map, (map_ext _ _ lower_byte_idem).
Qed.

Lemma getFileExtension_lower_bytes (l : list ascii) :
  Forall (fun c => is_ascii c = true) l ->
  getFileExtension lower (of_bytes (map lower_byte l))
  = getFileExtension lower (of_bytes l).
Proof.
  intros Hl. unfold getFileExtension. rewrite Base_lower, HasSuffix_lower.
  assert (HB : Forall (fun c => is_ascii c = true) (bytes (Base (of_bytes l))))
    by (apply Base_ascii; by rewrite bytes_of_bytes).
  set (B := Base (of_bytes l)) in *.
  assert (HE : Ext (of_bytes (map lower_byte (bytes B)))
               = of_bytes (map lower_byte (bytes (Ext B))))
    by (by rewrite Ext_lower, of_bytes_bytes).
  rewrite HE.
  destruct (Ext_shape B) as [->|(suf & -> & _ & Hsub)]; [done|].
  change (bytes (String "."%char (of_bytes suf)))
    with ("."%char :: bytes (of_bytes suf)).
  rewrite bytes_of_bytes.
  change (of_bytes (map lower_byte ("."%char :: suf)))
    with (String "."%char (of_bytes (map lower_byte suf))).
  cbn [String.eqb]. rewrite !TrimPrefix_dot. apply ToLower_lowered.
  apply List.Forall_forall. intros c Hc.
  by apply (proj1 (List.Forall_forall _ _) HB), Hsub.
Qed.

(** X4: file types are counted without regard to case: a key of ASCII bytes
    and the key in lower case have one file type. *)
Theorem file_type_ignores_case (key : string) :
  forallb is_ascii (bytes key) = true ->
  getFileExtension lower (ToLower lower key) = getFileExtension lower key.
Proof.
  intros Hkey. rewrite (ToLower_ascii lower key Hkey).
  rewrite getFileExtension_lower_bytes, of_bytes_bytes; [done|].
  apply List.Forall_forall. by apply forallb_forall.
Qed.

(** X5: the file type of a key of ASCII bytes has no ['/'], no ['.'] and no
    upper-case letter. *)
Theorem file_type_is_normalised (key : string) :
  forallb is_ascii (bytes key) = true ->
  Forall (fun c => c <> "/"%char /\ c <> "."%char /\ is_upper c = false)
    (bytes (getFileExtension lower key)).
Proof.
  intros Hkey.
  assert (Hk : Forall (fun c => is_ascii c = true) (bytes key))
    by (apply List.Forall_forall; by apply forallb_forall).
  pose proof (Base_ascii key Hk) as HB.
  unfold getFileExtension.
  destruct (Ext_shape (Base key)) as [->|(suf & -> & Hplain & Hsub)].
  - cbn [String.eqb]. destruct (HasSuffix key "/");
      apply List.Forall_forall; intros c Hc; vm_compute in Hc;
      repeat (destruct Hc as [<-|Hc]; [by repeat split|]); done.
  - cbn [String.eqb]. rewrite TrimPrefix_dot.
    assert (Ha : forallb is_ascii (bytes (of_bytes suf)) = true).
    { rewrite bytes_of_bytes. apply forallb_forall. intros c Hc.
      by apply (proj1 (List.Forall_forall _ _) HB), Hsub. }
    rewrite (ToLower_ascii _ _ Ha), !bytes_of_bytes.
    apply List.Forall_forall. intros c Hc.
    apply in_map_iff in Hc as (d & <- & Hd).
    apply (proj1 (List.Forall_forall _ _) Hplain) in Hd as [Hsep Hdot].
    split; [|split; [|apply lower_byte_not_upper]].
    + intros Heq. pose proof (lower_byte_separator d) as Hs.
      rewrite Heq, Hsep in Hs. done.
    + intros Heq. pose proof (lower_byte_dot d) as Hs.
      rewrite Heq in Hs. cbn in Hs. symmetry in Hs.
      by apply Ascii.eqb_eq in Hs.
Qed.

End WithUnicode.

Lemma file_type_ignores_case_witness :
  getFileExtension (fun s => s) (ToLower (fun s => s) "Data/Report.PDF")
  = getFileExtension (fun s => s) "Data/Report.PDF".
Proof. exact (file_type_ignores_case (fun s => s) "Data/Report.PDF" eq_refl). Defined.

Lemma file_type_is_normalised_witness :
  Forall (fun c => c <> "/"%char /\ c <> "."%char /\ is_upper c = false)
    (bytes (getFileExtension (fun s => s) "Data/Archive.Tar.GZ")).
Proof. exact (file_type_is_normalised (fun s => s) "Data/Archive.Tar.GZ" eq_refl). Defined.

End ExtensionCaseFacts.

(** ** The partitions the detector returns *)

Module PartitionShapeFacts.
Import Types GoString Regexp GoRuntime Partition Int64 Int64Facts GroupBy.
Import StringFacts GroupFacts OrderFacts KeyFacts DetectFacts PartitionFacts.

Lemma In_take {A : Type} (n : nat) (l : list A) (x : A) :
  In x (take n l) -> In x l.
Proof.
  revert n. induction l as [|y l IH]; intros [|n]; simpl; try done.
  intros [->|H]; [by left|right; eauto].
Qed.

Lemma members_In {A : Type} (key : A -> option string) (k : string)
    (l : list A) (a : A) :
  In a (members key k l) <-> In a l /\ key a = Some k.
Proof.
  unfold members. rewrite <- !list_elem_of_In, list_elem_of_filter. tauto.
Qed.

(** The date patterns: nothing, or the groups of a pattern that covers. *)
Lemma detectDatePartitions_cases (objs : list ObjectMetadata) :
  Z.of_nat (length objs) <= max_int64 ->
  detectDatePartitions objs = []
  \/ exists name re,
       In (name, re) patterns /\ covers re objs = true
       /\ detectDatePartitions objs = groupByPattern objs name re.
Proof.
  intros Hlen. unfold detectDatePartitions. rewrite try_patterns_first by done.
  destruct (List.find (fun p => covers p.2 objs) patterns) as [[name re]|] eqn:Hf;
    [|by left].
  apply find_some in Hf as [Hin Hc]. right. by exists name, re.
Qed.

(** What [AnalyzePartitions] returns: nothing, the groups of a date
    pattern that covers, or two or more groups of top-level prefixes. *)
Lemma AnalyzePartitions_cases (objs : list ObjectMetadata)
    (res : list Types.Partition) :
  Z.of_nat (length objs) <= max_int64 ->
  AnalyzePartitions objs res ->
  res = []
  \/ (exists name re,
        In (name, re) patterns /\ covers re objs = true
        /\ res = groupByPattern objs name re)
  \/ ((1 < size (group_top_level objs))%nat
      /\ res ≡ₚ (map_to_list (group_top_level objs)).*2).
Proof.
  intros Hlen. unfold AnalyzePartitions. destruct objs as [|o objs]; [by left|].
  cbv zeta.
  destruct (detectDatePartitions_cases (o :: objs) Hlen)
    as [Hd|(name & re & Hin & Hc & Hd)]; rewrite Hd.
  - intros (hp & Hhp & ->). simpl.
    apply detectHierarchicalPartitions_spec in Hhp.
    destruct (Nat.ltb_spec 1 (size (group_top_level (o :: objs)))).
    + right. right. by destruct Hhp.
    + by left.
  - pose proof (covers_nonempty _ name re Hlen Hc).
    destruct (groupByPattern (o :: objs) name re) eqn:Hg; [done|].
    intros ->. right. left. exists name, re. by rewrite Hg.
Qed.

Lemma In_hierarchical (objs : list ObjectMetadata) (p : Types.Partition) :
  Z.of_nat (length objs) <= max_int64 ->
  In p (map_to_list (group_top_level objs)).*2
  <-> exists t,
        members top_key t objs <> []
        /\ p = partition_of (t +:+ "/") hierarchical_name (members top_key t objs).
Proof.
  intros Hlen. rewrite values_lookup. split.
  - intros [k Hk]. exists k. rewrite group_top_level_lookup in Hk by done.
    destruct (members top_key k objs); [done|]. by simplify_eq.
  - intros (k & Hne & ->). exists k. rewrite group_top_level_lookup by done.
    by destruct (members top_key k objs).
Qed.

(** The partition of a group: as many objects as the group has, at least
    one and at most all; the keys of its first three objects as examples. *)
Lemma partition_of_shape (key : ObjectMetadata -> option string)
    (k prefix name : string) (objs : list ObjectMetadata) :
  members key k objs <> [] ->
  let p := partition_of prefix name (members key k objs) in
  1 <= ObjectCount p <= Z.of_nat (length objs)
  /\ Z.of_nat (length (Examples p)) = Z.min 3 (ObjectCount p)
  /\ Forall (fun e => exists o, In o objs /\ key o = Some k /\ Key o = e)
       (Examples p).
Proof.
  intros Hne p. unfold p, partition_of. cbn [ObjectCount Examples].
  pose proof (length_filter (fun a => key a = Some k) objs) as Hle.
  fold (members key k objs) in Hle.
  split; [|split].
  - destruct (members key k objs); [done|]. simpl length in *. lia.
  - rewrite length_take, length_map. lia.
  - apply List.Forall_forall. intros e He. apply In_take in He.
    apply in_map_iff in He as (o & <- & Ho). apply members_In in Ho as [Ho Hk].
    by exists o.
Qed.

Lemma append_slash_inj (s t : string) : s +:+ "/" = t +:+ "/" -> s = t.
Proof.
  revert t. induction s as [|c s IH]; intros [|d t]; simpl; try done.
  - intros [= <- H]. by destruct t.
  - intros [= -> H]. by destruct s.
  - intros [= -> H]. f_equal. by apply IH.
Qed.

#[global] Instance append_slash_Inj : Inj (=) (=) (fun s : string => s +:+ "/").
Proof. intros s t. apply append_slash_inj. Qed.

Lemma prefix_of_keys (f : string -> string)
    (l : list (string * Types.Partition)) :
  (forall k p, In (k, p) l -> Prefix p = f k) ->
  Prefix <$> l.*2 = f <$> l.*1.
Proof.
  induction l as [|[k p] l IH]; intros H; [done|].
  cbn [fmap list_fmap fst snd]. f_equal.
  - apply H. by left.
  - apply IH. intros k' p' Hin. apply H. by right.
Qed.

Lemma hierarchical_prefixes_distinct (objs : list ObjectMetadata) :
  Z.of_nat (length objs) <= max_int64 ->
  NoDup (Prefix <$> (map_to_list (group_top_level objs)).*2).
Proof.
  intros Hlen. rewrite (prefix_of_keys (fun s => s +:+ "/")).
  - apply (NoDup_fmap_2 _), NoDup_fst_map_to_list.
  - intros k p Hin. apply list_elem_of_In, elem_of_map_to_list in Hin.
    by destruct (group_top_level_pattern _ _ _ Hlen Hin).
Qed.

Lemma date_prefixes_distinct (objs : list ObjectMetadata) (name : string)
    (re : regex) :
  Z.of_nat (length objs) <= max_int64 ->
  NoDup (Prefix <$> groupByPattern objs name re).
Proof.
  intros Hlen. unfold groupByPattern. rewrite merge_sort_Permutation.
  rewrite (prefix_of_keys (fun s => s)).
  - rewrite list_fmap_id. apply NoDup_fst_map_to_list.
  - intros k p Hin. apply list_elem_of_In, elem_of_map_to_list in Hin.
    by destruct (group_matches_prefix _ _ _ _ _ Hlen Hin).
Qed.

(** X6: the partitions [AnalyzePartitions] returns share one pattern name and
    have distinct prefixes; each counts at least one object and at most
    all of them, and shows the keys of one to three objects of the
    collection: three, or as many as it counts. *)
Theorem partitions_are_well_formed (objs : list ObjectMetadata)
    (res : list Types.Partition) :
  Z.of_nat (length objs) <= max_int64 ->
  AnalyzePartitions objs res ->
  (exists name, Forall (fun p => Pattern p = name) res)
  /\ NoDup (map Prefix res)
  /\ Forall (fun p =>
               1 <= ObjectCount p <= Z.of_nat (length objs)
               /\ Z.of_nat (length (Examples p)) = Z.min 3 (ObjectCount p)
               /\ Forall (fun e => exists o, In o objs /\ Key o = e)
                    (Examples p))
       res.
Proof.
  intros Hlen HA. change (map Prefix res) with (Prefix <$> res).
  destruct (AnalyzePartitions_cases objs res Hlen HA)
    as [->|[(name & re & Hin & Hc & ->)|[Hsize Hperm]]].
  - split; [by exists ""|]. split; constructor.
  - split; [|split].
    + exists name. apply List.Forall_forall. intros p Hp.
      apply groupByPattern_groups in Hp as (k & _ & ->); done.
    + by apply date_prefixes_distinct.
    + apply List.Forall_forall. intros p Hp.
      apply groupByPattern_groups in Hp as (k & Hne & ->); [|done].
      destruct (partition_of_shape (date_key re) k k name objs Hne)
        as (H1 & H2 & H3).
      split; [done|]. split; [done|].
      eapply Forall_impl; [exact H3|]. intros e (o & Ho & _ & He). by exists o.
  - split; [|split].
    + exists hierarchical_name. apply List.Forall_forall. intros p Hp.
      apply list_elem_of_In in Hp. rewrite Hperm in Hp.
      apply list_elem_of_In, In_hierarchical in Hp as (k & _ & ->); done.
    + rewrite Hperm. by apply hierarchical_prefixes_distinct.
    + apply List.Forall_forall. intros p Hp.
      apply list_elem_of_In in Hp. rewrite Hperm in Hp.
      apply list_elem_of_In, In_hierarchical in Hp as (k & Hne & ->); [|done].
      destruct (partition_of_shape top_key k (k +:+ "/") hierarchical_name
                  objs Hne) as (H1 & H2 & H3).
      split; [done|]. split; [done|].
      eapply Forall_impl; [exact H3|]. intros e (o & Ho & _ & He). by exists o.
Qed.

Lemma partitions_are_well_formed_witness :
  let obj := fun key => mkObject key 10 zero_time "STANDARD" "" in
  let objs :=
    [ obj "logs/a"; obj "tmp/x"; obj "logs/b"; obj "logs/c"; obj "logs/d" ] in
  NoDup (map Prefix (AnalyzePartitions_run objs))
  /\ map (fun p => length (Examples p)) (AnalyzePartitions_run objs) = [3; 1]%nat.
Proof.
  intros obj objs.
  destruct (partitions_are_well_formed objs (AnalyzePartitions_run objs)
              ltac:(vm_compute; discriminate)
              (AnalyzePartitions_run_returns objs)) as (_ & Hnd & _).
  split; [exact Hnd|reflexivity].
Defined.

(** The number of objects whose key has a ['/']. *)
Definition keys_with_slash (objs : list ObjectMetadata) : nat :=
  length (filter (fun o => "/"%char ∈ bytes (Key o)) objs).

Lemma top_key_is_Some (o : ObjectMetadata) :
  is_Some (top_key o) <-> "/"%char ∈ bytes (Key o).
Proof.
  rewrite list_elem_of_In. split.
  - intros [t Ht]. apply top_key_spec in Ht as (rest & -> & _).
    rewrite !bytes_app. apply in_or_app. right. by left.
  - intros Hin. destruct (first_occurrence _ _ Hin) as (t & rest & Hk & Ht).
    exists (of_bytes t). apply top_key_spec. exists (of_bytes rest). split.
    + rewrite <- (of_bytes_bytes (Key o)), Hk, of_bytes_app. done.
    + by rewrite bytes_of_bytes.
Qed.

Lemma keyed_total_top (objs : list ObjectMetadata) :
  keyed_total top_key (fun _ => 1) objs = Z.of_nat (keys_with_slash objs).
Proof.
  unfold keyed_total, keys_with_slash. induction objs as [|o objs IH]; [done|].
  cbn [sum_of foldr]. fold (sum_of (fun a : ObjectMetadata =>
    match top_key a with Some _ => 1 | None => 0 end) objs).
  rewrite IH, filter_cons. pose proof (top_key_is_Some o) as Ho.
  destruct (top_key o) as [k|].
  - rewrite decide_True by (apply Ho; eauto). simpl length. lia.
  - rewrite decide_False; [lia|]. intros H. apply Ho in H. by destruct H.
Qed.

Lemma group_top_level_total (objs : list ObjectMetadata) :
  Z.of_nat (length objs) <= max_int64 ->
  msum ObjectCount (group_top_level objs) = Z.of_nat (keys_with_slash objs).
Proof.
  intros Hlen. rewrite group_top_level_group, <- keyed_total_top.
  apply (msum_group_exact top_key _ part_step ObjectCount (fun _ => 1)
           (part_count_init _ hierarchical_name) part_count_step).
  - intros; lia.
  - rewrite keyed_total_top. unfold keys_with_slash.
    pose proof (length_filter (fun o => "/"%char ∈ bytes (Key o)) objs). lia.
Qed.


(** X7: [AnalyzePartitions] returns nothing, or the partitions of one date
    pattern, which count the objects the pattern matches, more than half
    of all, or two or more partitions of top-level prefixes, which count
    the objects whose key has a ['/']. *)
Theorem partitions_count_their_objects (objs : list ObjectMetadata)
    (res : list Types.Partition) :
  Z.of_nat (length objs) <= max_int64 ->
  AnalyzePartitions objs res ->
  res = []
  \/ (exists name re,
        In (name, re) patterns
        /\ Forall (fun p => Pattern p = name) res
        /\ sum_of ObjectCount res = Z.of_nat (matched re objs)
        /\ Z.of_nat (length objs) < 2 * sum_of ObjectCount res)
  \/ (Forall (fun p => Pattern p = hierarchical_name) res
      /\ (2 <= length res)%nat
      /\ sum_of ObjectCount res = Z.of_nat (keys_with_slash objs)).
Proof.
  intros Hlen HA.
  destruct (AnalyzePartitions_cases objs res Hlen HA)
    as [->|[(name & re & Hin & Hc & ->)|[Hsize Hperm]]]; [by left| |].
  - right. left. exists name, re. split; [done|].
    assert (Hsum : sum_of ObjectCount (groupByPattern objs name re)
                   = Z.of_nat (matched re objs)).
    { unfold groupByPattern.
      rewrite (sum_of_perm _ _ _ (merge_sort_Permutation _ _)).
      by apply group_matches_total. }
    split; [|split; [done|]].
    + apply List.Forall_forall. intros p Hp.
      apply groupByPattern_groups in Hp as (k & _ & ->); done.
    + rewrite Hsum. by apply covers_spec.
  - right. right. split; [|split].
    + apply List.Forall_forall. intros p Hp.
      apply list_elem_of_In in Hp. rewrite Hperm in Hp.
      apply list_elem_of_In, In_hierarchical in Hp as (k & _ & ->); done.
    + rewrite Hperm, length_values. lia.
    + rewrite (sum_of_perm _ _ _ Hperm). by apply group_top_level_total.
Qed.

Lemma partitions_count_their_objects_witness :
  let obj := fun key => mkObject key 10 zero_time "STANDARD" "" in
  let objs := [ obj "logs/a"; obj "tmp/x"; obj "logs/b"; obj "flat" ] in
  AnalyzePartitions_run objs = []
  \/ (exists name re,
        In (name, re) patterns
        /\ Forall (fun p => Pattern p = name) (AnalyzePartitions_run objs)
        /\ sum_of ObjectCount (AnalyzePartitions_run objs)
           = Z.of_nat (matched re objs)
        /\ Z.of_nat (length objs)
           < 2 * sum_of ObjectCount (AnalyzePartitions_run objs))
  \/ (Forall (fun p => Pattern p = hierarchical_name) (AnalyzePartitions_run objs)
      /\ (2 <= length (AnalyzePartitions_run objs))%nat
      /\ sum_of ObjectCount (AnalyzePartitions_run objs)
         = Z.of_nat (keys_with_slash objs)).
Proof.
  intros obj objs.
  exact (partitions_count_their_objects objs (AnalyzePartitions_run objs)
           ltac:(vm_compute; discriminate) (AnalyzePartitions_run_returns objs)).
Defined.

Lemma match_here_sound (re : regex) (s m : string) :
  match_here re s = Some m ->
  (exists b, s = m +:+ b) /\ match_here re m = Some m
  /\ String.length m = length re.
Proof.
  revert s m. induction re as [|a re IH]; intros s m.
  - intros [= <-]. split; [by exists s|done].
  - cbn [match_here]. destruct s as [|c s]; [done|].
    destruct (atom_matches a c) eqn:Ha; [|done].
    destruct (match_here re s) as [m'|] eqn:Hm; [|done].
    intros [= <-]. destruct (IH s m' Hm) as ([b ->] & Hidem & Hlen).
    split; [by exists b|]. split.
    + cbn [match_here]. by rewrite Ha, Hidem.
    + simpl. by rewrite Hlen.
Qed.

Lemma FindString_sound (re : regex) (s m : string) :
  FindString re s = Some m ->
  (exists a b, s = a +:+ m +:+ b) /\ match_here re m = Some m
  /\ String.length m = length re.
Proof.
  induction s as [|c s IH]; cbn [FindString].
  - destruct (match_here re "") as [m'|] eqn:Hm; [|done].
    intros [= <-]. destruct (match_here_sound _ _ _ Hm) as ([b Hb] & H2 & H3).
    split; [by exists "", b|done].
  - destruct (match_here re (String c s)) as [m'|] eqn:Hm.
    + intros [= <-]. destruct (match_here_sound _ _ _ Hm) as ([b Hb] & H2 & H3).
      split; [by exists "", b|done].
    + intros H. destruct (IH H) as ((a & b & ->) & H2 & H3).
      split; [by exists (String c a), b|done].
Qed.

Lemma pattern_names_distinct (name : string) (re re' : regex) :
  In (name, re) patterns -> In (name, re') patterns -> re = re'.
Proof.
  unfold patterns. cbn [In]. intros H H'.
  repeat (destruct H as [H|H]); try done;
    repeat (destruct H' as [H'|H']); try done; congruence.
Qed.

Lemma pattern_names_not_hierarchical (name : string) (re : regex) :
  In (name, re) patterns -> name <> hierarchical_name.
Proof.
  unfold patterns. cbn [In]. intros H.
  repeat (destruct H as [H|H]); try done; by simplify_eq.
Qed.

(** X8: the prefix of a partition occurs in each of its example keys, and
    begins them when the partition is one of a top-level prefix; the
    prefix of a partition of a date pattern is a text of the shape of the
    pattern, as long as the expression of the pattern. *)
Theorem examples_contain_the_prefix (objs : list ObjectMetadata)
    (res : list Types.Partition) :
  Z.of_nat (length objs) <= max_int64 ->
  AnalyzePartitions objs res ->
  Forall (fun p =>
            Forall (fun e =>
                      exists a b,
                        e = a +:+ Prefix p +:+ b
                        /\ (Pattern p = hierarchical_name -> a = ""))
              (Examples p))
    res
  /\ forall name re,
       In (name, re) patterns ->
       Forall (fun p =>
                 Pattern p = name ->
                 match_here re (Prefix p) = Some (Prefix p)
                 /\ String.length (Prefix p) = length re)
         res.
Proof.
  intros Hlen HA.
  destruct (AnalyzePartitions_cases objs res Hlen HA)
    as [->|[(name & re & Hin & Hc & ->)|[Hsize Hperm]]].
  - split; [constructor|]. intros; constructor.
  - split.
    + apply List.Forall_forall. intros p Hp.
      apply groupByPattern_groups in Hp as (k & Hne & ->); [|done].
      destruct (partition_of_shape (date_key re) k k name objs Hne)
        as (_ & _ & H3).
      eapply Forall_impl; [exact H3|]. intros e (o & Ho & Hk & <-).
      unfold partition_of. cbn [Prefix Pattern].
      apply FindString_sound in Hk as ((a & b & Hk) & _).
      exists a, b. split; [done|]. intros Hn.
      by destruct (pattern_names_not_hierarchical _ _ Hin).
    + intros name' re' Hin'. apply List.Forall_forall. intros p Hp.
      apply groupByPattern_groups in Hp as (k & Hne & ->); [|done].
      unfold partition_of. cbn [Prefix Pattern]. intros <-.
      rewrite (pattern_names_distinct _ _ _ Hin' Hin).
      destruct (members (date_key re) k objs) as [|o rest] eqn:Hm; [done|].
      assert (Ho : In o (members (date_key re) k objs)) by (rewrite Hm; by left).
      apply members_In in Ho as [_ Hk].
      by apply FindString_sound in Hk as (_ & H2 & H3).
  - split.
    + apply List.Forall_forall. intros p Hp.
      apply list_elem_of_In in Hp. rewrite Hperm in Hp.
      apply list_elem_of_In, In_hierarchical in Hp as (k & Hne & ->); [|done].
      destruct (partition_of_shape top_key k (k +:+ "/") hierarchical_name
                  objs Hne) as (_ & _ & H3).
      eapply Forall_impl; [exact H3|]. intros e (o & Ho & Hk & <-).
      unfold partition_of. cbn [Prefix Pattern].
      apply top_key_spec in Hk as (rest & Hk & _).
      exists "", rest. split; [|done]. rewrite Hk.
      change ("" +:+ ((k +:+ "/") +:+ rest)) with ((k +:+ "/") +:+ rest).
      clear. induction k as [|c k IH]; [done|].
      change (String c (k +:+ "/" +:+ rest) = String c ((k +:+ "/") +:+ rest)).
      by rewrite IH.
    + intros name' re' Hin'. apply List.Forall_forall. intros p Hp.
      apply list_elem_of_In in Hp. rewrite Hperm in Hp.
      apply list_elem_of_In, In_hierarchical in Hp as (k & Hne & ->); [|done].
      unfold partition_of. cbn [Pattern]. intros Hn.
      by destruct (pattern_names_not_hierarchical _ _ Hin').
Qed.

Lemma examples_contain_the_prefix_witness :
  let obj := fun key => mkObject key 10 zero_time "STANDARD" "" in
  let objs := [ obj "raw/2023-01-15/a"; obj "raw/2023-01-16/b"; obj "c" ] in
  map Prefix (AnalyzePartitions_run objs) = ["2023-01-15"; "2023-01-16"]
  /\ Forall (fun p => Pattern p = "YYYY-MM-DD" -> String.length (Prefix p) = 10%nat)
       (AnalyzePartitions_run objs).
Proof.
  intros obj objs. split; [reflexivity|].
  destruct (examples_contain_the_prefix objs (AnalyzePartitions_run objs)
              ltac:(vm_compute; discriminate)
              (AnalyzePartitions_run_returns objs)) as [_ H].
  eapply Forall_impl; [apply (H "YYYY-MM-DD" PartitionFacts.re_date)|].
  - unfold patterns. cbn [In]. tauto.
  - intros p Hp Hn. by destruct (Hp Hn).
Defined.

End PartitionShapeFacts.

(** ** More of the bucket aggregator: the bucket list, pages and limits *)

Module BucketListing.
Import Types Bucket.

(** One element of [result.Buckets], its pointers dereferenced. *)
Record S3Bucket : Type := mkS3Bucket {
  bucket_Name : string;
  bucket_CreationDate : Time
}.

(** The loop of [getBucketCreationDate] over [result.Buckets]. *)
Fixpoint find_creation_date (buckets : list S3Bucket) (bucketName : string)
  : option Time :=
  match buckets with
  | [] => None
  | bucket :: rest =>
      if String.eqb (bucket_Name bucket) bucketName
      then Some (bucket_CreationDate bucket)
      else find_creation_date rest bucketName
  end.

(** [getBucketCreationDate]: [listing] is the answer of [ListBuckets],
    [None] for its error; [None] is the error return. *)
Definition getBucketCreationDate (listing : option (list S3Bucket))
    (bucketName : string) : option Time :=
  match listing with
  | None => None
  | Some buckets => find_creation_date buckets bucketName
  end.

(** [ListAllBuckets]. *)
Definition ListAllBuckets (listing : option (list S3Bucket))
  : option (list string) :=
  match listing with
  | None => None
  | Some buckets => Some (map bucket_Name buckets)
  end.





(** The objects of the pages up to the first that is not truncated;
    [None] when a call fails before. *)
Fixpoint pages_read (responses : list ListResponse) : option (list S3Object) :=
  match responses with
  | [] => None
  | ListError :: _ => None
  | ListPage contents isTruncated :: rest =>
      if isTruncated
      then match pages_read rest with
           | Some more => Some (contents ++ more)%list
           | None => None
           end
      else Some contents
  end.

End BucketListing.

Module BucketListingFacts.
Import Types Bucket BucketListing Int64 Int64Facts GroupBy BucketFacts.




Lemma listObjects_loop_unlimited (limit : Z) (responses : list ListResponse)
    (st : ListState) :
  limit <= 0 ->
  listObjects_loop limit responses st
  = match pages_read responses with
    | Some raws => Some (fold_left process_object raws st)
    | None => None
    end.
Proof.
  intros Hlimit. revert st.
  assert (Hgt : (limit >? 0) = false)
    by (rewrite Z.gtb_ltb; apply Z.ltb_ge; lia).
  induction responses as [|r responses IH]; intros st;
    cbn [listObjects_loop pages_read]; rewrite Hgt; cbn [andb]; [done|].
  destruct r as [|contents isTruncated]; [done|].
  destruct isTruncated; cbn [negb]; [|done].
  rewrite IH. destruct (pages_read responses); [|done].
  by rewrite fold_left_app.
Qed.

(** X11: without limit, [listObjects] returns the objects of every page up to
    the first that is not truncated, in the order listed, with their keys,
    sizes, dates and tags, an empty storage class replaced by
    ["STANDARD"]; it fails when a call fails before that page, and reads
    nothing after it. *)
Theorem listing_without_limit_reads_every_page (limit : Z)
    (responses : list ListResponse) (s0 : BucketSummary) :
  limit <= 0 ->
  TotalObjects s0 = 0 -> TotalSize s0 = 0 -> StorageClasses s0 = ∅ ->
  match pages_read responses with
  | Some raws =>
      exists s,
        listObjects limit responses s0 = Some (s, map to_metadata raws)
        /\ StorageClasses s = classes_of (map to_metadata raws)
  | None => listObjects limit responses s0 = None
  end
  /\ (forall before contents after,
        responses = (before ++ ListPage contents false :: after)%list ->
        Forall (fun r => exists c, r = ListPage c true) before ->
        pages_read responses
        = Some (concat (map (fun r => match r with
                                      | ListPage c _ => c
                                      | ListError => []
                                      end) before) ++ contents)%list).
Proof.
  intros Hlimit H1 H2 H3. split.
  - unfold listObjects. rewrite listObjects_loop_unlimited by done.
    destruct (pages_read responses) as [raws|]; [|done].
    destruct (process_objects_aggregated s0 raws H1 H2 H3) as [Ha Ho].
    cbv zeta in Ha, Ho. unfold start in Ha, Ho. eexists. split.
    + rewrite Ho. reflexivity.
    + rewrite Ha. cbn [StorageClasses]. by rewrite Ho.
  - intros before contents after -> Hb.
    induction Hb as [|r before [c ->] _ IH]; [done|].
    cbn [app pages_read map concat]. rewrite IH. by rewrite <- app_assoc.
Qed.

Lemma listing_without_limit_reads_every_page_witness :
  let obj := fun key => mkS3Object key 10 zero_time "" "" in
  let responses :=
    [ ListPage [obj "a"; obj "b"] true; ListPage [obj "c"] false;
      ListError ] in
  let s0 := mkBucketSummary "b" "r" zero_time 0 0 ∅ 0%float in
  exists s,
    listObjects 0 responses s0
    = Some (s, map to_metadata [obj "a"; obj "b"; obj "c"]).
Proof.
  intros obj responses s0.
  destruct (listing_without_limit_reads_every_page 0 responses s0
              ltac:(lia) eq_refl eq_refl eq_refl) as [H _].
  change (pages_read responses) with (Some [obj "a"; obj "b"; obj "c"]) in H.
  destruct H as (s & Hs & _). by exists s.
Defined.

Lemma find_creation_date_spec (buckets : list S3Bucket) (name : string) :
  match find_creation_date buckets name with
  | Some date =>
      exists before bucket after,
        buckets = (before ++ bucket :: after)%list
        /\ bucket_Name bucket = name
        /\ bucket_CreationDate bucket = date
        /\ Forall (fun b => bucket_Name b <> name) before
  | None => Forall (fun b => bucket_Name b <> name) buckets
  end.
Proof.
  induction buckets as [|b buckets IH]; cbn [find_creation_date]; [done|].
  destruct (String.eqb_spec (bucket_Name b) name) as [Hb|Hb].
  - exists [], b, buckets. done.
  - destruct (find_creation_date buckets name) as [date|].
    + destruct IH as (before & bucket & after & -> & H1 & H2 & H3).
      exists (b :: before), bucket, after. split; [done|].
      split; [done|]. split; [done|]. by constructor.
    + by constructor.
Qed.

(** X12: [AnalyzeBucket] needs the bucket in the list of [ListBuckets]: it
    returns nothing when the call fails or no bucket of the list has the
    name, whatever the listing of the objects answers; the summary it
    returns carries the name and the region asked for, and the creation
    date of the first bucket of the list that has the name. *)
Theorem summary_identifies_the_bucket (limit : Z)
    (listing : option (list S3Bucket)) (responses : list ListResponse)
    (bucketName region : string) (s : BucketSummary)
    (objs : list ObjectMetadata) :
  AnalyzeBucket limit (getBucketCreationDate listing bucketName) responses
    bucketName region (s, objs) ->
  Name s = bucketName /\ Region s = region
  /\ exists before bucket after,
       listing = Some (before ++ bucket :: after)%list
       /\ bucket_Name bucket = bucketName
       /\ Forall (fun b => bucket_Name b <> bucketName) before
       /\ CreationDate s = bucket_CreationDate bucket.
Proof.
  intros (date & s' & objs' & cost & Hdate & Hl & _ & [= -> ->]).
  apply listObjects_aggregated in Hl as [-> _]; [|done..].
  cbn [Name Region CreationDate]. split; [done|]. split; [done|].
  destruct listing as [buckets|]; [|done]. cbn [getBucketCreationDate] in Hdate.
  pose proof (find_creation_date_spec buckets bucketName) as Hspec.
  rewrite Hdate in Hspec.
  destruct Hspec as (before & bucket & after & -> & H1 & H2 & H3).
  by exists before, bucket, after.
Qed.

Lemma summary_identifies_the_bucket_witness :
  let listing :=
    Some [ mkS3Bucket "other" (mkTime 5 0); mkS3Bucket "logs" (mkTime 7 0);
           mkS3Bucket "logs" (mkTime 9 0) ] in
  exists s,
    AnalyzeBucket 0 (getBucketCreationDate listing "logs") [ListPage [] false]
      "logs" "eu-west-1" (s, [])
    /\ Name s = "logs" /\ CreationDate s = mkTime 7 0.
Proof.
  intros listing.
  assert (HA : AnalyzeBucket 0 (getBucketCreationDate listing "logs")
                 [ListPage [] false] "logs" "eu-west-1"
                 (mkBucketSummary "logs" "eu-west-1" (mkTime 7 0) 0 0 ∅ 0%float,
                  [])).
  { exists (mkTime 7 0).
    exists (mkBucketSummary "logs" "eu-west-1" (mkTime 7 0) 0 0 ∅ 0%float), [], 0%float.
    split; [reflexivity|]. split; [reflexivity|]. split; [|reflexivity].
    exists []. split; [|reflexivity]. cbn [StorageClasses].
    by rewrite map_to_list_empty. }
  eexists. split; [exact HA|].
  destruct (summary_identifies_the_bucket _ _ _ _ _ _ _ HA) as (H1 & _ & _).
  split; [exact H1|reflexivity].
Defined.

End BucketListingFacts.

(** ** The command line: the list of bucket names ([cmd], [runProfiler]) *)

Module Cmd.
Import GoString.

(** The bytes [asciiSpace] marks: tab, line feed, vertical tab, form feed,
    carriage return and space. *)
Definition is_ascii_space (c : ascii) : bool :=
  let n := nat_of_ascii c in
  ((9 <=? n) && (n <=? 13) || (n =? 32))%nat.

Section TrimSpace.

(** [TrimFunc(s, unicode.IsSpace)] and [TrimRightFunc(s, unicode.IsSpace)],
    the paths [strings.TrimSpace] takes at a byte outside ASCII. *)
Variable trimUnicode : string -> string.
Variable trimRightUnicode : string -> string.

(** The second loop of [strings.TrimSpace], on the reversed bytes of
    [s[start:]]. *)
Fixpoint trim_stop (rev_rest : list ascii) : string :=
  match rev_rest with
  | [] => ""
  | c :: before =>
      if negb (is_ascii c) then trimRightUnicode (of_bytes (rev rev_rest))
      else if is_ascii_space c then trim_stop before
      else of_bytes (rev rev_rest)
  end.

(** The first loop of [strings.TrimSpace]. *)
Fixpoint trim_start (rest : list ascii) : string :=
  match rest with
  | [] => ""
  | c :: after =>
      if negb (is_ascii c) then trimUnicode (of_bytes rest)
      else if is_ascii_space c then trim_start after
      else trim_stop (rev rest)
  end.

(** [strings.TrimSpace]. *)
Definition TrimSpace (s : string) : string := trim_start (bytes s).

(** The branch [bucketNames != ""] of [runProfiler]:
    [strings.Split(bucketNames, ",")], each piece trimmed. *)
Definition bucketsToProfile (bucketNames : string) : list string :=
  map TrimSpace (Split bucketNames ","%char).

End TrimSpace.

End Cmd.

Module CmdFacts.
Import GoString Cmd StringFacts KeyFacts.

(** The number of commas of a string. *)
Definition commas (s : string) : nat :=
  length (filter (fun c => c = ","%char) (bytes s)).

Lemma split_bytes_length (sep : ascii) (l : list ascii) :
  length (split_bytes sep l) = S (length (filter (fun c => c = sep) l)).
Proof.
  induction l as [|c l IH]; [done|]. cbn [split_bytes]. rewrite filter_cons.
  destruct (Ascii.eqb_spec c sep) as [->|Hne].
  - rewrite decide_True by done. simpl. by rewrite IH.
  - rewrite decide_False by done.
    destruct (split_bytes sep l); simpl in *; [lia|done].
Qed.


Section TrimSpace.

Variable trimUnicode : string -> string.
Variable trimRightUnicode : string -> string.

(** X14: the list of buckets read from [--buckets] has one name more than
    the string has commas, so it is never empty: names are not filtered,
    and an empty piece is an empty bucket name. *)
Theorem bucket_list_has_a_name_per_piece (bucketNames : string) :
  length (bucketsToProfile trimUnicode trimRightUnicode bucketNames)
  = S (commas bucketNames)
  /\ bucketsToProfile trimUnicode trimRightUnicode bucketNames <> []
  /\ bucketsToProfile trimUnicode trimRightUnicode "a,,b" = ["a"; ""; "b"].
Proof.
  assert (H : length (bucketsToProfile trimUnicode trimRightUnicode bucketNames)
              = S (commas bucketNames)).
  { unfold bucketsToProfile, Split, commas.
    by rewrite !length_map, split_bytes_length. }
  split; [done|]. split; [|done].
  intros Hnil. by rewrite Hnil in H.
Qed.















End TrimSpace.



End CmdFacts.

(** ** The profiler ([profiler/profiler.go]) *)

Module Profiler.
Import Types.

Section ProfileBucket.

(** [strings.Map(unicode.ToLower, s)], as in [Metadata]. *)
Variable mapUnicodeLower : string -> string.

(** The three calls of the writer ([output.Writer], not among the
    sources): [true] when the call returns no error. Each is called at
    most once in a run. *)
Variable WriteBucketSummary : BucketSummary -> bool.
Variable WriteMetadataSummary : string -> MetadataSummary -> bool.
Variable WritePartitions : string -> list Partition -> bool.




End ProfileBucket.

Section ProfileMultipleBuckets.

(** What the calls of [getRegion] and [ProfileBucket] read and change. *)
Variable World : Type.

(** [getRegion]: the region, [None] for an error. *)
Variable getRegion : World -> string -> option string * World.

(** [p.ProfileBucket]: [true] when it returns [nil]. *)
Variable profileBucket : World -> string -> string -> bool * World.




End ProfileMultipleBuckets.

End Profiler.

Module ProfilerFacts.
Import Types Profiler Int64 Int64Facts GroupBy.

Section ProfileMultipleBuckets.

Variable World : Type.
Variable getRegion : World -> string -> option string * World.
Variable profileBucket : World -> string -> string -> bool * World.


End ProfileMultipleBuckets.


Section ProfileBucket.

Variable lower : string -> string.
Variable WriteBucketSummary : BucketSummary -> bool.
Variable WriteMetadataSummary : string -> MetadataSummary -> bool.
Variable WritePartitions : string -> list Types.Partition -> bool.


End ProfileBucket.


End ProfilerFacts.

(** ** The entries of the storage classes *)

Module ClassFacts.
Import Types Bucket Int64 Int64Facts GroupBy BucketFacts.

Lemma fold_class_step (rest : list ObjectMetadata) (a b : Z) :
  fold_left class_step rest (mkStats (wrap a) (wrap b))
  = mkStats (wrap (a + Z.of_nat (length rest))) (wrap (b + sum_of Size rest)).
Proof.
  revert a b. induction rest as [|o rest IH]; intros a b.
  - simpl. by rewrite !Z.add_0_r.
  - cbn [fold_left]. unfold class_step at 2. cbn [stats_Count stats_Size].
    unfold incr, add. rewrite !wrap_add_l, IH. f_equal; f_equal.
    + simpl length. lia.
    + simpl. lia.
Qed.

(** The objects of a class among those collected. *)
Definition of_class (class : string) (objs : list ObjectMetadata)
  : list ObjectMetadata :=
  filter (fun o => StorageClass o = class) objs.

(** X13: the map of the storage classes has an entry for the classes of the
    objects collected and for no other; the entry of a class holds the
    number of its objects and the sum of their sizes, as [int64] values. *)
Theorem class_entries_match_objects (limit : Z) (creationDate : option Time)
    (responses : list ListResponse) (bucketName region : string)
    (s : BucketSummary) (objs : list ObjectMetadata) :
  AnalyzeBucket limit creationDate responses bucketName region (s, objs) ->
  forall class,
    StorageClasses s !! class
    = match of_class class objs with
      | [] => None
      | o :: rest =>
          Some (mkStats (wrap (Z.of_nat (length (o :: rest))))
                        (wrap (sum_of Size (o :: rest))))
      end.
Proof.
  intros HA class.
  apply AnalyzeBucket_aggregated in HA as (_ & _ & -> & _).
  unfold classes_of, of_class. rewrite group_lookup. unfold members, class_key.
  rewrite (list_filter_iff (fun o => Some (StorageClass o) = Some class)
             (fun o => StorageClass o = class))
    by (intros o; split; congruence).
  destruct (filter _ objs) as [|o rest]; [done|].
  cbn [summary_of]. f_equal.
  change (class_init o) with (mkStats (wrap 1) (wrap (Size o))).
  rewrite fold_class_step. f_equal; f_equal.
  simpl length. lia.
Qed.

Lemma class_entries_match_objects_witness :
  let page :=
    [ mkS3Object "a" 10 zero_time "" "";
      mkS3Object "b" 20 zero_time "GLACIER" "";
      mkS3Object "c" 30 zero_time "STANDARD" "" ] in
  exists s objs,
    AnalyzeBucket 0 (Some zero_time) [ListPage page false] "b" "r" (s, objs)
    /\ StorageClasses s !! "STANDARD" = Some (mkStats 2 40)
    /\ StorageClasses s !! "ONEZONE_IA" = None.
Proof.
  intros page.
  assert (HA : AnalyzeBucket 0 (Some zero_time) [ListPage page false] "b" "r"
                 (mkBucketSummary "b" "r" zero_time 3 60
                    (<["STANDARD" := mkStats 2 40]> {["GLACIER" := mkStats 1 20]})
                    (calculateCost_in
                       (map_to_list
                          (<["STANDARD" := mkStats 2 40]>
                             ({["GLACIER" := mkStats 1 20]}
                                : gmap string StorageClassStats)))),
                  map to_metadata page)).
  { exists zero_time. eexists _, _, _. split; [reflexivity|].
    split; [vm_compute; reflexivity|].
    split; [eexists; split; reflexivity|].
    vm_compute. reflexivity. }
  eexists _, _. split; [exact HA|].
  pose proof (class_entries_match_objects _ _ _ _ _ _ _ HA) as H.
  split; [rewrite H; reflexivity|rewrite H; reflexivity].
Defined.

End ClassFacts.

(** ** Finer and coarser date patterns *)

Module PatternOrderFacts.
Import Types GoString Regexp Partition Int64 GroupFacts KeyFacts DetectFacts.
Import PartitionFacts PartitionShapeFacts.

(** A match of [re] followed by [suffix] begins with a match of [re]. *)
Lemma match_here_head (re suffix : regex) (s : string) :
  is_Some (match_here (re ++ suffix)%list s) -> is_Some (match_here re s).
Proof.
  revert s. induction re as [|a re IH]; intros s; [by eauto|].
  cbn [app match_here]. destruct s as [|c s]; [done|].
  destruct (atom_matches a c); [|done].
  intros H. destruct (IH s) as [m Hm].
  { destruct (match_here (re ++ suffix)%list s); [eauto|by destruct H]. }
  rewrite Hm. eauto.
Qed.

Lemma FindString_head (re suffix : regex) (s : string) :
  is_Some (FindString (re ++ suffix)%list s) -> is_Some (FindString re s).
Proof.
  induction s as [|c s IH]; intros H; cbn [FindString] in H.
  - destruct (match_here (re ++ suffix)%list "") eqn:Hm; [|by destruct H].
    apply FindString_here, (match_here_head re suffix). rewrite Hm. eauto.
  - destruct (match_here (re ++ suffix)%list (String c s)) eqn:Hm.
    + apply FindString_here, (match_here_head re suffix). rewrite Hm. eauto.
    + apply FindString_later, IH, H.
Qed.

Lemma matched_head (re suffix : regex) (objs : list ObjectMetadata) :
  (matched (re ++ suffix)%list objs <= matched re objs)%nat.
Proof.
  unfold matched. induction objs as [|o objs IH]; [done|].
  rewrite !filter_cons.
  destruct (decide (is_Some (date_key (re ++ suffix)%list o))) as [H|H].
  - rewrite decide_True by (by apply (FindString_head re suffix)). simpl. lia.
  - destruct (decide (is_Some (date_key re o))); simpl; lia.
Qed.

(** A partition of a date pattern among those returned is one of the
    first pattern of the table that covers. *)
Lemma date_result_find (objs : list ObjectMetadata)
    (res : list Types.Partition) (p : Types.Partition) :
  Z.of_nat (length objs) <= max_int64 ->
  AnalyzePartitions objs res -> In p res ->
  Pattern p <> hierarchical_name ->
  exists re,
    List.find (fun q => covers q.2 objs) patterns = Some (Pattern p, re).
Proof.
  intros Hlen HA Hp Hnot. unfold AnalyzePartitions in HA.
  destruct objs as [|o objs]; [by subst res|].
  cbv zeta in HA. unfold detectDatePartitions in HA.
  rewrite try_patterns_first in HA by done.
  assert (Hhier : forall hp,
            detectHierarchicalPartitions (o :: objs) hp -> In p hp -> False).
  { intros hp Hhp Hin.
    apply (detectHierarchicalPartitions_pattern _ _ Hlen) in Hhp.
    by apply (proj1 (List.Forall_forall _ _) Hhp) in Hin. }
  destruct (List.find (fun q => covers q.2 (o :: objs)) patterns)
    as [[name re]|].
  - destruct (groupByPattern (o :: objs) name re) as [|q qs] eqn:Hg.
    + destruct HA as (hp & Hhp & ->). simpl in Hp. by destruct (Hhier hp).
    + simpl in HA. subst res. rewrite <- Hg in Hp.
      apply groupByPattern_groups in Hp as (k & _ & ->); [|done].
      by exists re.
  - destruct HA as (hp & Hhp & ->). simpl in Hp. by destruct (Hhier hp).
Qed.

(** The expressions of the first four patterns. *)
Definition re_year_month : regex :=
  (lits "year=" ++ digits 4 ++ lits "/month=" ++ digits 2)%list.
Definition re_year_month_day : regex :=
  (re_year_month ++ lits "/day=" ++ digits 2)%list.
Definition re_slash_month : regex := (digits 4 ++ lits "/" ++ digits 2)%list.
Definition re_slash_day : regex := (re_slash_month ++ lits "/" ++ digits 2)%list.

(** X9: the table lists each finer pattern before the coarser one it extends:
    the coarser one matches every key the finer one matches, so it covers
    whenever the finer one does, and its partitions are returned only
    when the finer one matches at most half of the objects. *)
Theorem finer_patterns_come_first (objs : list ObjectMetadata) :
  Z.of_nat (length objs) <= max_int64 ->
  map snd (take 4 patterns)
  = [re_year_month_day; re_year_month; re_slash_day; re_slash_month]
  /\ (matched re_year_month_day objs <= matched re_year_month objs)%nat
  /\ (matched re_slash_day objs <= matched re_slash_month objs)%nat
  /\ (covers re_year_month_day objs = true -> covers re_year_month objs = true)
  /\ (covers re_slash_day objs = true -> covers re_slash_month objs = true)
  /\ (forall res p,
        AnalyzePartitions objs res -> In p res ->
        (Pattern p = "year=YYYY/month=MM" ->
         2 * Z.of_nat (matched re_year_month_day objs) <= Z.of_nat (length objs))
        /\ (Pattern p = "YYYY/MM" ->
            2 * Z.of_nat (matched re_slash_day objs) <= Z.of_nat (length objs))).
Proof.
  intros Hlen. split; [reflexivity|].
  pose proof (matched_head re_year_month (lits "/day=" ++ digits 2)%list objs) as H1.
  pose proof (matched_head re_slash_month (lits "/" ++ digits 2)%list objs) as H2.
  fold re_year_month_day in H1. fold re_slash_day in H2.
  split; [done|]. split; [done|].
  split; [rewrite !covers_spec; lia|]. split; [rewrite !covers_spec; lia|].
  intros res p HA Hp.
  split; intros Hpat.
  - destruct (date_result_find objs res p Hlen HA Hp) as [re Hf];
      [by rewrite Hpat|].
    rewrite Hpat in Hf. apply Z.nlt_ge. intros Hlt. apply covers_spec in Hlt.
    unfold patterns in Hf. cbn [List.find snd] in Hf.
    change (lits "year=" ++ digits 4 ++ lits "/month=" ++ digits 2
              ++ lits "/day=" ++ digits 2)%list with re_year_month_day in Hf.
    rewrite Hlt in Hf. discriminate Hf.
  - destruct (date_result_find objs res p Hlen HA Hp) as [re Hf];
      [by rewrite Hpat|].
    rewrite Hpat in Hf. apply Z.nlt_ge. intros Hlt. apply covers_spec in Hlt.
    unfold patterns in Hf. cbn [List.find snd] in Hf.
    change (digits 4 ++ lits "/" ++ digits 2 ++ lits "/" ++ digits 2)%list
      with re_slash_day in Hf.
    rewrite Hlt in Hf.
    repeat match type of Hf with
           | (if covers ?r objs then _ else _) = _ =>
               destruct (covers r objs); [discriminate Hf|]
           end.
    discriminate Hf.
Qed.

Lemma finer_patterns_come_first_witness :
  let obj := fun key => mkObject key 10 zero_time "STANDARD" "" in
  let objs :=
    [ obj "year=2023/month=01/day=15/a"; obj "year=2023/month=01/b";
      obj "year=2023/month=02/c"; obj "d" ] in
  map Pattern (AnalyzePartitions_run objs)
  = ["year=YYYY/month=MM"; "year=YYYY/month=MM"]
  /\ 2 * Z.of_nat (matched re_year_month_day objs) <= Z.of_nat (length objs).
Proof.
  intros obj objs. split; [reflexivity|].
  destruct (finer_patterns_come_first objs ltac:(vm_compute; discriminate))
    as (_ & _ & _ & _ & _ & H).
  destruct (AnalyzePartitions_run objs) as [|p ps] eqn:Hrun;
    [vm_compute in Hrun; discriminate Hrun|].
  refine (proj1 (H (p :: ps) p _ (or_introl eq_refl)) _).
  - rewrite <- Hrun. apply AnalyzePartitions_run_returns.
  - vm_compute in Hrun. injection Hrun as <- _. reflexivity.
Defined.

End PatternOrderFacts.
